(** * NovaSignal: the indicator bank and the signal engine

    A shallow embedding of [src/utils/indicators.ts], of the types of
    [src/types.ts] it uses, and of the feed handler of the application
    component (candle aggregation and the generated history).

    Modelling conventions.
    - A TypeScript [number] that carries a price or a score is an IEEE 754
      binary64 value: Rocq's primitive [float], with the kernel's own
      operations, so every arithmetic step rounds as it does in JavaScript.
    - A [number] that only ever counts or indexes (an array length, a loop
      index, a [period] argument: 14, 20, 50, 12, 26, 9 and 10 at every call
      site) is a [Z]; [JS.num] converts it where it enters float arithmetic.
      Integers below 2^53 are exact in binary64, so the two agree on every
      array the program can hold.  Non-integral or NaN periods are outside
      the model.
    - A default argument is written out at the call: [calculateRSI] takes
      its period (14), [calculateMACD] its three (12, 26, 9) and
      [calculateSupertrend] its period and multiplier (10, 3).
    - An array is a [list]; an indexed read is [array_get] and yields
      [None] for JavaScript's [undefined].
    - A call either returns or throws: [completion].  A property read on
      [undefined] throws [TypeError]. *)

From Stdlib Require Import List ZArith Lia Bool Floats.
Import ListNotations.

Local Open Scope float_scope.

(** ** JavaScript numbers *)

Module JS.

(** The value of an integral [number] as a binary64 float (round to
    nearest even, as a JavaScript integer literal is read). *)
Definition num (z : Z) : float :=
  SF2Prim (binary_normalize prec emax z 0%Z false).

(** [x > y] and [x >= y]; both are false when an operand is NaN. *)
Definition gtb (x y : float) : bool := y <? x.
Definition geb (x y : float) : bool := y <=? x.

(** [x === y] on numbers is IEEE equality: [NaN !== NaN], [-0 === +0]. *)
Definition strict_eq (x y : float) : bool := x =? y.

Definition is_pos_zero (x : float) : bool := is_zero x && negb (get_sign x).
Definition is_neg_zero (x : float) : bool := is_zero x && get_sign x.

(** [Math.max(...args)], ECMA-262 21.3.2.24: start from -Infinity, a NaN
    argument gives NaN, and +0 counts as larger than -0. *)
Fixpoint max_from (highest : float) (args : list float) : float :=
  match args with
  | [] => highest
  | number :: rest =>
      if is_nan number then nan
      else if is_pos_zero number && is_neg_zero highest
           then max_from number rest
      else if highest <? number then max_from number rest
      else max_from highest rest
  end.

Definition Math_max (args : list float) : float := max_from neg_infinity args.

(** [Math.min(...args)], ECMA-262 21.3.2.25: the mirror image. *)
Fixpoint min_from (lowest : float) (args : list float) : float :=
  match args with
  | [] => lowest
  | number :: rest =>
      if is_nan number then nan
      else if is_neg_zero number && is_pos_zero lowest
           then min_from number rest
      else if number <? lowest then min_from number rest
      else min_from lowest rest
  end.

Definition Math_min (args : list float) : float := min_from infinity args.

Definition Math_abs (x : float) : float := abs x.

(** [arr[i]] for an integral index: [undefined] out of range. *)
Definition array_get {A : Type} (arr : list A) (i : Z) : option A :=
  if (i <? 0)%Z then None else nth_error arr (Z.to_nat i).

(** [ToNumber] on the result of reading a [number[]]:
    [undefined] becomes NaN. *)
Definition to_number (v : option float) : float :=
  match v with Some x => x | None => nan end.

Definition length {A : Type} (arr : list A) : Z := Z.of_nat (List.length arr).

(** [arr.slice(start)], ECMA-262 23.1.3.28 with [end] absent: a negative
    [start] counts from the end, and both ends are clamped. *)
Definition slice {A : Type} (start : Z) (arr : list A) : list A :=
  let len := length arr in
  let k := if (start <? 0)%Z then Z.max (len + start) 0 else Z.min start len in
  skipn (Z.to_nat k) arr.

(** [arr.reduce((a, b) => a + b, 0)]. *)
Definition sum (arr : list float) : float :=
  fold_left (fun a b => a + b) arr 0.

End JS.

(** ** Completions *)

Inductive js_error : Type :=
| TypeError
| InvalidArgument.

Inductive completion (A : Type) : Type :=
| Normal (value : A)
| Throw (error : js_error).

Arguments Normal {A} value.
Arguments Throw {A} error.

Definition bind {A B : Type} (c : completion A) (k : A -> completion B)
  : completion B :=
  match c with
  | Normal v => k v
  | Throw e => Throw e
  end.

Notation "x <- c ;; k" := (bind c (fun x => k))
  (at level 61, c at next level, right associativity).

Notation "' pat <- c ;; k" := (bind c (fun x => match x with pat => k end))
  (at level 61, pat pattern, c at next level, right associativity).

(** Reading a property of [v]: a [TypeError] when [v] is [undefined]. *)
Definition defined {A : Type} (v : option A) : completion A :=
  match v with
  | Some x => Normal x
  | None => Throw TypeError
  end.

(** ** src/types.ts *)

Inductive TradeSignal : Type :=
| CALL
| PUT
| NEUTRAL
| WAITING.

Record Candle : Type := mkCandle {
  time : float;
  open : float;
  high : float;
  low : float;
  close : float
}.

Inductive Color : Type := green | red.

Record HeikinAshiCandle : Type := mkHA {
  ha_candle : Candle;
  color : Color;
  hasUpperWick : bool;
  hasLowerWick : bool;
  bodySize : float;
  upperWickSize : float;
  lowerWickSize : float
}.

Inductive Trend : Type := TrendUP | TrendDOWN | SIDEWAYS.

Inductive Direction : Type := UP | DOWN.

Record Macd : Type := mkMacd {
  macd_value : float;
  macd_signal : float;
  histogram : float
}.

Record Supertrend : Type := mkSupertrend {
  direction : Direction;
  st_value : float
}.

Record AnalysisResult : Type := mkResult {
  signal : TradeSignal;
  confidence : float;
  rsi : float;
  ema20 : float;
  ema50 : float;
  trend : Trend;
  macd : Macd;
  supertrend : Supertrend
}.

(** ** src/utils/indicators.ts *)

(** The tolerance of the wick tests in the loop of [calculateHeikinAshi]:
    the literal [0.00001], read as the nearest binary64 value. *)
Definition EPSILON : float := 0x1.4f8b588e368f1p-17.

(** [(c.open + c.high + c.low + c.close) / 4], summed left to right. *)
Definition ohlc4 (c : Candle) : float :=
  (open c + high c + low c + close c) / 4.

(** The first Heikin-Ashi candle (lines 18-30): the raw candle spread into
    the result with [close] replaced, wick flags by direct comparison. *)
Definition firstHa (first : Candle) : HeikinAshiCandle :=
  let firstHaClose := ohlc4 first in
  {| ha_candle := {| time := time first; open := open first;
                     high := high first; low := low first;
                     close := firstHaClose |};
     color := if JS.geb firstHaClose (open first) then green else red;
     hasUpperWick :=
       JS.gtb (high first) (JS.Math_max [open first; firstHaClose]);
     hasLowerWick :=
       low first <? JS.Math_min [open first; firstHaClose];
     bodySize := JS.Math_abs (firstHaClose - open first);
     upperWickSize := high first - JS.Math_max [open first; firstHaClose];
     lowerWickSize := JS.Math_min [open first; firstHaClose] - low first |}.

(** One iteration of the loop (lines 33-58), from the raw candle [curr]
    and the previous Heikin-Ashi candle [prevHa]. *)
Definition nextHa (prevHa : HeikinAshiCandle) (curr : Candle)
  : HeikinAshiCandle :=
  let haClose := ohlc4 curr in
  let haOpen := (open (ha_candle prevHa) + close (ha_candle prevHa)) / 2 in
  let haHigh := JS.Math_max [high curr; haOpen; haClose] in
  let haLow := JS.Math_min [low curr; haOpen; haClose] in
  let bodySize := JS.Math_abs (haClose - haOpen) in
  let upperWickSize := haHigh - JS.Math_max [haOpen; haClose] in
  let lowerWickSize := JS.Math_min [haOpen; haClose] - haLow in
  {| ha_candle := {| time := time curr; open := haOpen; high := haHigh;
                     low := haLow; close := haClose |};
     color := if JS.geb haClose haOpen then green else red;
     hasUpperWick := JS.gtb upperWickSize EPSILON;
     hasLowerWick := JS.gtb lowerWickSize EPSILON;
     bodySize := bodySize;
     upperWickSize := upperWickSize;
     lowerWickSize := lowerWickSize |}.

(** The loop [for (i = 1; i < candles.length; i++)]: [rest] is
    [candles[i..]] and [prevHa] is [haCandles[i - 1]]. *)
Fixpoint haLoop (prevHa : HeikinAshiCandle) (rest : list Candle)
  : list HeikinAshiCandle :=
  match rest with
  | [] => []
  | curr :: rest' =>
      let ha := nextHa prevHa curr in
      ha :: haLoop ha rest'
  end.

Definition calculateHeikinAshi (candles : list Candle)
  : list HeikinAshiCandle :=
  match candles with
  | [] => []
  | first :: rest =>
      let ha0 := firstHa first in
      ha0 :: haLoop ha0 rest
  end.

(** [calculateEMA] (lines 67-85).  [emaLoop] is the loop from [i = 1]:
    [rest] is [data[i..]]. *)
Fixpoint emaLoop (k prevEma : float) (rest : list float) : list float :=
  match rest with
  | [] => []
  | currentPrice :: rest' =>
      let newEma := (currentPrice - prevEma) * k + prevEma in
      newEma :: emaLoop k newEma rest'
  end.

(** The source validates nothing: every path ends in [return]. *)
Definition calculateEMA (data : list float) (period : Z)
  : completion (list float) :=
  let k := 2 / (JS.num period + 1) in
  match data with
  | [] => Normal []
  | prevEma :: rest => Normal (prevEma :: emaLoop k prevEma rest)
  end.

(** [calculateRSI] (lines 90-110).  [rsiLoop n i] runs [n] iterations of
    the loop body starting at index [i]. *)
Fixpoint rsiLoop (n : nat) (i : Z) (closePrices : list float)
    (gains losses : float) : float * float :=
  match n with
  | O => (gains, losses)
  | S n' =>
      let change := JS.to_number (JS.array_get closePrices i)
                    - JS.to_number (JS.array_get closePrices (i - 1)) in
      if JS.geb change 0
      then rsiLoop n' (i + 1)%Z closePrices (gains + change) losses
      else rsiLoop n' (i + 1)%Z closePrices gains (losses + JS.Math_abs change)
  end.

Definition calculateRSI (closePrices : list float) (period : Z)
  : completion float :=
  let len := JS.length closePrices in
  if (len <? 2)%Z then Normal 50
  else
    let effectivePeriod := Z.min (len - 1) period in
    let start := (len - effectivePeriod)%Z in
    (* for (i = start; i < len; i++): len - start iterations, none if
       start >= len *)
    let '(gains, losses) :=
      rsiLoop (Z.to_nat (len - start)) start closePrices 0 0 in
    let avgGain := gains / JS.num effectivePeriod in
    let avgLoss := losses / JS.num effectivePeriod in
    if JS.strict_eq avgLoss 0 then Normal 100
    else
      let rs := avgGain / avgLoss in
      Normal (100 - (100 / (1 + rs))).

(** [calculateMACD] (lines 115-132).  On an empty series the source
    leaves [value] and [signal] [undefined] and makes [histogram] NaN; the
    record holds numbers, so [undefined] is rendered as NaN.
    [analyzeMarket] calls it with at least two closes. *)
Definition calculateMACD (data : list float)
    (fastPeriod slowPeriod signalPeriod : Z) : completion Macd :=
  fastEMA <- calculateEMA data fastPeriod ;;
  slowEMA <- calculateEMA data slowPeriod ;;
  let macdLine :=
    map (fun i => JS.to_number (JS.array_get fastEMA (Z.of_nat i))
                  - JS.to_number (JS.array_get slowEMA (Z.of_nat i)))
        (seq 0 (List.length data)) in
  signalLine <- calculateEMA macdLine signalPeriod ;;
  let currentMACD :=
    JS.to_number (JS.array_get macdLine (JS.length macdLine - 1)) in
  let currentSignal :=
    JS.to_number (JS.array_get signalLine (JS.length signalLine - 1)) in
  let histogram := currentMACD - currentSignal in
  Normal {| macd_value := currentMACD; macd_signal := currentSignal;
            histogram := histogram |}.

(** One true range (line 150). *)
Definition trueRange (curr prev : Candle) : float :=
  let closePrev := close prev in
  JS.Math_max [high curr - low curr;
               JS.Math_abs (high curr - closePrev);
               JS.Math_abs (low curr - closePrev)].

(** The loop of lines 145-151: [rest] is [candles[i..]], [prev] is
    [candles[i - 1]]. *)
Fixpoint trLoop (prev : Candle) (rest : list Candle) : list float :=
  match rest with
  | [] => []
  | curr :: rest' => trueRange curr prev :: trLoop curr rest'
  end.

Definition trueRanges (candles : list Candle) : list float :=
  match candles with
  | [] => []
  | c0 :: rest => trLoop c0 rest
  end.

(** [calculateSupertrend] (lines 140-178). *)
Definition calculateSupertrend (candles : list Candle) (period : Z)
    (multiplier : float) : completion Supertrend :=
  if (JS.length candles <? period + 1)%Z
  then Normal {| direction := UP; st_value := 0 |}
  else
    let tr := trueRanges candles in
    let atr :=
      if (JS.length tr >=? period)%Z
      then JS.sum (JS.slice (- period) tr) / JS.num period
      else JS.sum tr / JS.num (JS.length tr) in
    curr <- defined (JS.array_get candles (JS.length candles - 1)) ;;
    let hl2 := (high curr + low curr) / 2 in
    let basicUpper := hl2 + (multiplier * atr) in
    let basicLower := hl2 - (multiplier * atr) in
    if JS.gtb (close curr) basicLower
    then Normal {| direction := UP; st_value := basicLower |}
    else Normal {| direction := DOWN; st_value := basicUpper |}.

(** *** analyzeMarket (lines 185-313), by its commented steps *)

Definition TradeSignal_eqb (a b : TradeSignal) : bool :=
  match a, b with
  | CALL, CALL | PUT, PUT | NEUTRAL, NEUTRAL | WAITING, WAITING => true
  | _, _ => false
  end.

Definition Color_eqb (a b : Color) : bool :=
  match a, b with
  | green, green | red, red => true
  | _, _ => false
  end.

Definition Direction_eqb (a b : Direction) : bool :=
  match a, b with
  | UP, UP | DOWN, DOWN => true
  | _, _ => false
  end.

(** The fallback of lines 195-204. *)
Definition coldStart : AnalysisResult :=
  {| signal := CALL; confidence := 50; rsi := 50; ema20 := 0; ema50 := 0;
     trend := SIDEWAYS;
     macd := {| macd_value := 0; macd_signal := 0; histogram := 0 |};
     supertrend := {| direction := UP; st_value := 0 |} |}.

(** What lines 207-219 bind. *)
Record Readings : Type := mkReadings {
  currentHa : HeikinAshiCandle;
  prevHa : HeikinAshiCandle;
  price : float;
  r_rsi : float;
  r_ema20 : float;
  r_ema50 : float;
  r_macd : Macd;
  r_supertrend : Supertrend
}.

(** Lines 207-219.  [currentHa] and [prevHa] are read as defined where
    they are bound; the guard of line 193 has made them so. *)
Definition readIndicators (candles : list Candle)
    (haCandles : list HeikinAshiCandle) (closes : list float)
  : completion Readings :=
  currentHa <- defined (JS.array_get haCandles (JS.length haCandles - 1)) ;;
  prevHa <- defined (JS.array_get haCandles (JS.length haCandles - 2)) ;;
  let price := close (ha_candle currentHa) in
  rsi <- calculateRSI closes 14 ;;
  ema20Arr <- calculateEMA closes 20 ;;
  ema50Arr <- calculateEMA closes 50 ;;
  macd <- calculateMACD closes 12 26 9 ;;
  supertrend <- calculateSupertrend candles 10 3 ;;
  let ema20 :=
    if (JS.length ema20Arr >? 0)%Z
    then JS.to_number (JS.array_get ema20Arr (JS.length ema20Arr - 1))
    else price in
  let ema50 :=
    if (JS.length ema50Arr >? 0)%Z
    then JS.to_number (JS.array_get ema50Arr (JS.length ema50Arr - 1))
    else price in
  Normal {| currentHa := currentHa; prevHa := prevHa; price := price;
            r_rsi := rsi; r_ema20 := ema20; r_ema50 := ema50;
            r_macd := macd; r_supertrend := supertrend |}.

(** The literal [0.3] of line 229, as the nearest binary64 value. *)
Definition SMALL_BODY_RATIO : float := 0x1.3333333333333p-2.

(** Lines 228-229. *)
Definition isSmallBody (currentHa : HeikinAshiCandle) : bool :=
  let totalRange := high (ha_candle currentHa) - low (ha_candle currentHa) in
  bodySize currentHa <? totalRange * SMALL_BODY_RATIO.

(** Lines 223 and 232-236. *)
Definition candleSignal (currentHa : HeikinAshiCandle) : TradeSignal :=
  let isGreen := Color_eqb (color currentHa) green in
  if isGreen then CALL else PUT.

(** Step 4, lines 239-284: the accumulated confidence for [signal]. *)
Definition confluence (signal : TradeSignal) (r : Readings) : float :=
  let price := price r in
  let ema20 := r_ema20 r in
  let ema50 := r_ema50 r in
  let rsi := r_rsi r in
  let macd := r_macd r in
  let supertrend := r_supertrend r in
  let currentHa := currentHa r in
  let prevHa := prevHa r in
  let isSmallBody := isSmallBody currentHa in
  let confidence := 0 in
  let confidence := confidence + 30 in
  if TradeSignal_eqb signal CALL then
    let confidence := if JS.gtb price ema20 then confidence + 10 else confidence in
    let confidence := if JS.gtb ema20 ema50 then confidence + 10 else confidence in
    let confidence :=
      if JS.gtb rsi 50 && (rsi <? 80) then confidence + 10 else confidence in
    let confidence := if rsi <? 30 then confidence + 15 else confidence in
    let confidence :=
      if JS.gtb (histogram macd) 0 then confidence + 10 else confidence in
    let confidence :=
      if JS.gtb (macd_value macd) (macd_signal macd)
      then confidence + 5 else confidence in
    let confidence :=
      if Direction_eqb (direction supertrend) UP
      then confidence + 10 else confidence in
    let confidence :=
      if negb isSmallBody && negb (hasLowerWick currentHa)
      then confidence + 10 else confidence in
    let confidence :=
      if isSmallBody && Color_eqb (color prevHa) red
      then confidence - 10 else confidence in
    confidence
  else
    let confidence := if price <? ema20 then confidence + 10 else confidence in
    let confidence := if ema20 <? ema50 then confidence + 10 else confidence in
    let confidence :=
      if (rsi <? 50) && JS.gtb rsi 20 then confidence + 10 else confidence in
    let confidence := if JS.gtb rsi 70 then confidence + 15 else confidence in
    let confidence :=
      if histogram macd <? 0 then confidence + 10 else confidence in
    let confidence :=
      if macd_value macd <? macd_signal macd
      then confidence + 5 else confidence in
    let confidence :=
      if Direction_eqb (direction supertrend) DOWN
      then confidence + 10 else confidence in
    let confidence :=
      if negb isSmallBody && negb (hasUpperWick currentHa)
      then confidence + 10 else confidence in
    let confidence :=
      if isSmallBody && Color_eqb (color prevHa) green
      then confidence - 10 else confidence in
    confidence.

(** Lines 289-291. *)
Definition trendLabel (ema20 ema50 : float) : Trend :=
  if JS.gtb ema20 ema50 then TrendUP
  else if ema20 <? ema50 then TrendDOWN
  else SIDEWAYS.

(** Lines 294-298: the forced binary signal. *)
Definition tieBreak (signal : TradeSignal) (confidence price ema20 : float)
  : TradeSignal * float :=
  if confidence <? 40
  then ((if JS.gtb price ema20 then CALL else PUT), 45)
  else (signal, confidence).

Definition analyzeMarket (candles : list Candle) : completion AnalysisResult :=
  let haCandles := calculateHeikinAshi candles in
  let closes := map close candles in
  if (JS.length haCandles <? 2)%Z then Normal coldStart
  else
    r <- readIndicators candles haCandles closes ;;
    let signal := candleSignal (currentHa r) in
    let confidence := confluence signal r in
    let trend := trendLabel (r_ema20 r) (r_ema50 r) in
    let '(signal, confidence) :=
      tieBreak signal confidence (price r) (r_ema20 r) in
    let confidence := JS.Math_min [confidence; 99] in
    Normal {| signal := signal; confidence := confidence; rsi := r_rsi r;
              ema20 := r_ema20 r; ema50 := r_ema50 r; trend := trend;
              macd := r_macd r; supertrend := r_supertrend r |}.

(** ** The application component (src/unnamed/part_000): the feed handler

    The component keeps the candle window and the latest analysis in
    mutable cells ([candlesRef], [latestAnalysisRef]) and the handler's own
    variables in the closure of its effect ([currentAggregatedCandle],
    [startTime], [isInitialized]).  They are the fields of [Feed], threaded
    through [onmessage].  A message is modelled after [JSON.parse]: a kline
    message carries the parsed close [parseFloat(k.c)] and the event time
    [E] in milliseconds, an integer; [NoKline] is any other parsed value
    whose [k] can be read and is falsy (an object without [k], a number, a
    string, a boolean, an array); [Null] is the parsed [null], whose [k]
    cannot be read.
    [Math.random] is the sequence [random] of the values it returns. *)

Inductive Timeframe : Type := tf5s | tf15s | tf30s | tf1m | tf2m.

(** Lines 47-56. *)
Definition intervalSeconds (timeframe : Timeframe) : Z :=
  match timeframe with
  | tf5s => 5
  | tf15s => 15
  | tf30s => 30
  | tf1m => 60
  | tf2m => 120
  end.

Inductive Message : Type :=
| Kline (c : float) (E : Z)
| NoKline
| Null.

Record Feed : Type := mkFeed {
  candlesRef : list Candle;
  latestAnalysisRef : option AnalysisResult;
  currentAggregatedCandle : option Candle;
  startTime : Z;
  isInitialized : bool;
  tickerPrice : float
}.

(** The state the effect sets up before it opens the socket (lines 86-104). *)
Definition initialFeed : Feed :=
  {| candlesRef := []; latestAnalysisRef := None;
     currentAggregatedCandle := None; startTime := 0;
     isInitialized := false; tickerPrice := 0 |}.

(** The literal [0.0002] of line 66, as the nearest binary64 value. *)
Definition VOLATILITY_RATIO : float := 0x1.a36e2eb1c432dp-13.

Section FeedHandler.

Variable timeframe : Timeframe.

(** [random n] is the value of the [n]-th call of [Math.random]. *)
Variable random : nat -> float.

(** The loop of [generateInitialHistory] (lines 65-80) with [i] counting
    down to 1; [draw] is the number of [Math.random] calls made so far. *)
Fixpoint historyLoop (basePrice : float) (baseTime : Z) (i : nat)
    (draw : nat) (currentPrice : float) : list Candle :=
  match i with
  | O => []
  | S i' =>
      let volatility := basePrice * VOLATILITY_RATIO in
      let change := (random draw - 0.5) * volatility in
      let open := currentPrice in
      let close := currentPrice + change in
      let high :=
        JS.Math_max [open; close] + (random (draw + 1) * volatility * 0.5) in
      let low :=
        JS.Math_min [open; close] - (random (draw + 2) * volatility * 0.5) in
      {| time := JS.num (baseTime - Z.of_nat i * intervalSeconds timeframe);
         open := open; high := high; low := low; close := close |}
      :: historyLoop basePrice baseTime i' (draw + 3) close
  end.

Definition generateInitialHistory (basePrice : float) (baseTime : Z)
  : list Candle :=
  historyLoop basePrice baseTime 60 0 basePrice.

(** [wsRef.current.onmessage] (lines 106-154). *)
Definition onmessage (s : Feed) (message : Message) : completion Feed :=
  match message with
  | Null => Throw TypeError (* line 108 reads message.k *)
  | NoKline => Normal s
  | Kline tickPrice E =>
      let tickTime := (E / 1000)%Z in
      (* Pre-fill history on first tick if empty *)
      let candles :=
        if negb (isInitialized s)
        then generateInitialHistory tickPrice tickTime
        else candlesRef s in
      (* Aggregation Logic *)
      let bucket := (tickTime / intervalSeconds timeframe)%Z in
      '(candles, latest, current, start) <-
        (if negb (startTime s =? bucket)%Z then
           '(candles, latest) <-
             match currentAggregatedCandle s with
             | Some pending =>
                 let newHistory := JS.slice (-100) (candles ++ [pending]) in
                 result <- analyzeMarket newHistory ;;
                 Normal (newHistory, Some result)
             | None => Normal (candles, latestAnalysisRef s)
             end ;;
           Normal (candles, latest,
                   Some {| time := JS.num tickTime; open := tickPrice;
                           high := tickPrice; low := tickPrice;
                           close := tickPrice |},
                   bucket)
         else
           match currentAggregatedCandle s with
           | Some pending =>
               Normal (candles, latestAnalysisRef s,
                       Some {| time := time pending; open := open pending;
                               high := JS.Math_max [high pending; tickPrice];
                               low := JS.Math_min [low pending; tickPrice];
                               close := tickPrice |},
                       startTime s)
           | None => Normal (candles, latestAnalysisRef s, None, startTime s)
           end) ;;
      (* Real-time update of analysis for current pending candle *)
      latest <-
        match current with
        | Some pending =>
            if (JS.length candles >? 0)%Z
            then result <- analyzeMarket (candles ++ [pending]) ;;
                 Normal (Some result)
            else Normal latest
        | None => Normal latest
        end ;;
      Normal {| candlesRef := candles; latestAnalysisRef := latest;
                currentAggregatedCandle := current; startTime := start;
                isInitialized := true; tickerPrice := tickPrice |}
  end.

(** The handler run over the messages of a session, in arrival order, as
    the event loop runs it: an exception the handler throws is reported
    and the next message is still delivered.  The only throw of the handler
    is the read of line 108, before any of its writes, so the cells are
    then as they were before the message. *)
Fixpoint session (s : Feed) (messages : list Message) : completion Feed :=
  match messages with
  | [] => Normal s
  | message :: rest =>
      match onmessage s message with
      | Normal s' => session s' rest
      | Throw _ => session s rest
      end
  end.

End FeedHandler.

(** ** Notions used in the statements, and sample inputs *)

(** Lines 104-109 of [calculateRSI]: the value from the two averages. *)
Definition rsiOfAverages (avgGain avgLoss : float) : float :=
  if JS.strict_eq avgLoss 0 then 100
  else 100 - (100 / (1 + avgGain / avgLoss)).

(** The last [n] elements of a list, all of it when it has fewer. *)
Definition lastN {A : Type} (n : Z) (l : list A) : list A :=
  skipn (List.length l - Z.to_nat n) l.

(** The accumulated confidence as a function of the outcomes of the nine
    tests of one branch, in source order; the first eight add, the last
    subtracts. *)
Definition tally (t1 t2 t3 t4 t5 t6 t7 t8 t9 : bool) : float :=
  let confidence := 0 + 30 in
  let confidence := if t1 then confidence + 10 else confidence in
  let confidence := if t2 then confidence + 10 else confidence in
  let confidence := if t3 then confidence + 10 else confidence in
  let confidence := if t4 then confidence + 15 else confidence in
  let confidence := if t5 then confidence + 10 else confidence in
  let confidence := if t6 then confidence + 5 else confidence in
  let confidence := if t7 then confidence + 10 else confidence in
  let confidence := if t8 then confidence + 10 else confidence in
  let confidence := if t9 then confidence - 10 else confidence in
  confidence.

(** The result of [analyzeMarket] past the guard of line 193. *)
Definition finalResult (r : Readings) : AnalysisResult :=
  let candle := candleSignal (currentHa r) in
  let accumulated := confluence candle r in
  let final := tieBreak candle accumulated (price r) (r_ema20 r) in
  {| signal := fst final;
     confidence := JS.Math_min [snd final; 99];
     rsi := r_rsi r; ema20 := r_ema20 r; ema50 := r_ema50 r;
     trend := trendLabel (r_ema20 r) (r_ema50 r);
     macd := r_macd r; supertrend := r_supertrend r |}.

(** A candle with a range, a body and both ends of the body inside the
    range: [low < high], [open <> close], [high >= max(open, close)] and
    [low <= min(open, close)]. *)
Definition nondegenerate (c : Candle) : bool :=
  (low c <? high c)
  && negb (open c =? close c)
  && JS.geb (high c) (JS.Math_max [open c; close c])
  && (low c <=? JS.Math_min [open c; close c]).

Definition sample_closes : list float := [10; 11; 10.5].

Definition sample_window : list Candle :=
  [ mkCandle 0 1 5 0 2; mkCandle 1 1.5 5 1 2.5 ].

(** A window on which the score stays below 40: a red candle followed by
    a small green one at unchanged close. *)
Definition tie_window : list Candle :=
  [ mkCandle 0 10 10 1 9; mkCandle 1 9 9 8 9 ].

(** Four candles with two gaps: the true ranges are 4, 1 and 6 while the
    highs are 2, 1 and 2 above the lows. *)
Definition gap_window : list Candle :=
  [ mkCandle 0 10 11 9 10; mkCandle 1 13 14 12 13;
    mkCandle 2 13 13.5 12.5 13; mkCandle 3 8.875 9 7 7 ].

(** A single candle with a wick of 3/4 * 2^-20, about 7.2e-7. *)
Definition faint_wick : Candle := mkCandle 0 0 0x1p-20 0 0.

(** No close of the series is below the one before it. *)
Definition neverFalls (closePrices : list float) : Prop :=
  forall i,
    (1 <= i < JS.length closePrices)%Z ->
    JS.geb (JS.to_number (JS.array_get closePrices i)
            - JS.to_number (JS.array_get closePrices (i - 1))) 0 = true.

(** The values the confidence can take: the multiples of 5 from 40 to 95,
    and the cap 99. *)
Definition confidenceLevels : list Z :=
  [40; 45; 50; 55; 60; 65; 70; 75; 80; 85; 90; 95; 99]%Z.

(** A candle with its timestamp erased. *)
Definition untimed (c : Candle) : Candle :=
  {| time := 0; open := open c; high := high c; low := low c;
     close := close c |}.

(** The same for a smoothed candle and for the readings that hold two. *)
Definition untimedHa (ha : HeikinAshiCandle) : HeikinAshiCandle :=
  {| ha_candle := untimed (ha_candle ha); color := color ha;
     hasUpperWick := hasUpperWick ha; hasLowerWick := hasLowerWick ha;
     bodySize := bodySize ha; upperWickSize := upperWickSize ha;
     lowerWickSize := lowerWickSize ha |}.

Definition untimedReadings (r : Readings) : Readings :=
  {| currentHa := untimedHa (currentHa r); prevHa := untimedHa (prevHa r);
     price := price r; r_rsi := r_rsi r; r_ema20 := r_ema20 r;
     r_ema50 := r_ema50 r; r_macd := r_macd r;
     r_supertrend := r_supertrend r |}.


(** The bucket of a kline message stamped [E] milliseconds. *)
Definition bucketOf (timeframe : Timeframe) (E : Z) : Z :=
  (E / 1000 / intervalSeconds timeframe)%Z.

(** What holds of the feed state between two messages. *)
Definition feedInv (s : Feed) : Prop :=
  (List.length (candlesRef s) <= 100)%nat /\
  (isInitialized s = true -> (60 <= List.length (candlesRef s))%nat) /\
  (isInitialized s = false -> currentAggregatedCandle s = None) /\
  match currentAggregatedCandle s with
  | Some pending =>
      close pending = tickerPrice s /\
      exists result,
        latestAnalysisRef s = Some result /\
        analyzeMarket (candlesRef s ++ [pending]) = Normal result
  | None => latestAnalysisRef s = None
  end.

(** A series that never falls. *)
Definition rising_closes : list float := [10; 10; 12.5; 13].


(** A [Math.random] that returns 0.5 at every call. *)
Definition steady (n : nat) : float := 0.5.

(** * Properties *)

(** ** Telling floats apart *)

(** IEEE equality is reflexive off NaN, so a comparison that fails on a
    number separates it from every other float. *)
Lemma float_neq (x y : float) :
  (x =? x) = true -> (x =? y) = false -> x <> y.
Proof.
  intros Hrefl Hneq Heq. subst y. congruence.
Qed.

Ltac float_neq := apply float_neq; vm_compute; reflexivity.

Lemma Normal_inj {A : Type} (a b : A) : Normal a = Normal b -> a = b.
Proof.
  intros H.
  exact (f_equal (fun c => match c with Normal v => v | Throw _ => a end) H).
Qed.

(** ** calculateHeikinAshi *)

Lemma haLoop_length (rest : list Candle) :
  forall prevHa, List.length (haLoop prevHa rest) = List.length rest.
Proof.
  induction rest as [|curr rest IH]; intros prevHa; simpl.
  - reflexivity.
  - now rewrite IH.
Qed.

Lemma calculateHeikinAshi_length (candles : list Candle) :
  List.length (calculateHeikinAshi candles) = List.length candles.
Proof.
  destruct candles as [|first rest]; simpl.
  - reflexivity.
  - now rewrite haLoop_length.
Qed.

(** Every element the loop pushes is [nextHa] of the element before it in
    the output and of the raw candle at its own index. *)
Lemma haLoop_nth (rest : list Candle) :
  forall prevHa i curr,
    nth_error rest i = Some curr ->
    exists p,
      nth_error (prevHa :: haLoop prevHa rest) i = Some p /\
      nth_error (haLoop prevHa rest) i = Some (nextHa p curr).
Proof.
  induction rest as [|c rest IH]; intros prevHa i curr Hi.
  - destruct i; discriminate.
  - destruct i as [|i]; simpl in Hi.
    + injection Hi as ->. exists prevHa. split; reflexivity.
    + destruct (IH (nextHa prevHa c) i curr Hi) as (p & Hp & Hn).
      exists p. split; assumption.
Qed.

Lemma calculateHeikinAshi_nth (candles : list Candle) (i : nat) (curr : Candle) :
  (0 < i)%nat ->
  nth_error candles i = Some curr ->
  exists p,
    nth_error (calculateHeikinAshi candles) (i - 1) = Some p /\
    nth_error (calculateHeikinAshi candles) i = Some (nextHa p curr).
Proof.
  intros Hpos Hi.
  destruct candles as [|first rest]; [destruct i; discriminate|].
  destruct i as [|i]; [lia|].
  simpl in Hi. replace (S i - 1)%nat with i by lia.
  simpl. apply haLoop_nth. exact Hi.
Qed.

Lemma color_green_iff (b : bool) :
  (if b then green else red) = green <-> b = true.
Proof.
  destruct b; split; intro H; (reflexivity || discriminate).
Qed.

(** C2. For a non-empty candle sequence the Heikin-Ashi output has the
    length of the input; its first element keeps the first raw open and has
    close (open+high+low+close)/4; every element i>0 has close
    (open_i+high_i+low_i+close_i)/4, open the half-sum of the previous
    smoothed open and close, high and low the Math.max / Math.min of the
    raw high / low with the smoothed open and close; and an element is
    green exactly when its smoothed close >= its smoothed open. *)
Theorem calculateHeikinAshi_formulas (candles : list Candle) :
  candles <> [] ->
  let out := calculateHeikinAshi candles in
  List.length out = List.length candles /\
  (exists first ha0,
      nth_error candles 0 = Some first /\
      nth_error out 0 = Some ha0 /\
      open (ha_candle ha0) = open first /\
      close (ha_candle ha0)
        = (open first + high first + low first + close first) / 4 /\
      (color ha0 = green <->
       JS.geb (close (ha_candle ha0)) (open (ha_candle ha0)) = true)) /\
  (forall i curr,
      (0 < i)%nat ->
      nth_error candles i = Some curr ->
      exists prevHa ha,
        nth_error out (i - 1) = Some prevHa /\
        nth_error out i = Some ha /\
        close (ha_candle ha)
          = (open curr + high curr + low curr + close curr) / 4 /\
        open (ha_candle ha)
          = (open (ha_candle prevHa) + close (ha_candle prevHa)) / 2 /\
        high (ha_candle ha)
          = JS.Math_max [high curr; open (ha_candle ha); close (ha_candle ha)] /\
        low (ha_candle ha)
          = JS.Math_min [low curr; open (ha_candle ha); close (ha_candle ha)] /\
        (color ha = green <->
         JS.geb (close (ha_candle ha)) (open (ha_candle ha)) = true)).
Proof.
  intros Hne out. subst out. split; [|split].
  - apply calculateHeikinAshi_length.
  - destruct candles as [|first rest]; [congruence|].
    exists first, (firstHa first). simpl.
    repeat split; try reflexivity; apply color_green_iff.
  - intros i curr Hpos Hi.
    destruct (calculateHeikinAshi_nth candles i curr Hpos Hi) as (p & Hp & Hn).
    exists p, (nextHa p curr).
    repeat split; try assumption; try reflexivity; apply color_green_iff.
Qed.

Lemma calculateHeikinAshi_formulas_witness :
  sample_window <> [] /\
  exists prevHa ha,
    nth_error (calculateHeikinAshi sample_window) 0 = Some prevHa /\
    nth_error (calculateHeikinAshi sample_window) 1 = Some ha /\
    close (ha_candle ha) = (1.5 + 5 + 1 + 2.5) / 4 /\
    open (ha_candle ha)
      = (open (ha_candle prevHa) + close (ha_candle prevHa)) / 2.
Proof.
  split; [discriminate|].
  destruct (calculateHeikinAshi_formulas sample_window ltac:(discriminate))
    as (_ & _ & Hrest).
  destruct (Hrest 1%nat (mkCandle 1 1.5 5 1 2.5) ltac:(lia) eq_refl)
    as (p & h & Hp & Hh & Hc & Ho & _).
  exists p, h. repeat split; assumption.
Defined.

(** ** calculateRSI and calculateEMA *)

(** C1, as the code has it: on the closes [10, 10] the series has two
    elements, so the fewer-than-two branch is not taken; the one change is
    0, the average loss is 0 and the result is 100. *)
Theorem calculateRSI_flat_pair : calculateRSI [10; 10] 14 = Normal 100.
Proof. vm_compute. reflexivity. Qed.

(** C1 as stated fails: the result on [10, 10] is not 50. *)
Lemma calculateRSI_flat_pair_not_50 : calculateRSI [10; 10] 14 <> Normal 50.
Proof.
  assert (Hrun : calculateRSI [10; 10] 14 = Normal 100)
    by (vm_compute; reflexivity).
  rewrite Hrun. intros H. apply Normal_inj in H. revert H.
  float_neq.
Qed.

Lemma emaLoop_length (k : float) (rest : list float) :
  forall prevEma, List.length (emaLoop k prevEma rest) = List.length rest.
Proof.
  induction rest as [|x rest IH]; intros prevEma; simpl.
  - reflexivity.
  - now rewrite IH.
Qed.

(** [calculateEMA] returns, whatever the period, a series as long as its
    input. *)
Lemma calculateEMA_returns (data : list float) (period : Z) :
  exists emaArray,
    calculateEMA data period = Normal emaArray /\
    List.length emaArray = List.length data.
Proof.
  unfold calculateEMA. destruct data as [|x rest].
  - exists []. split; reflexivity.
  - eexists. split; [reflexivity|]. simpl. now rewrite emaLoop_length.
Qed.

(** A one-element series is its own EMA, whatever the period. *)
Lemma calculateEMA_single (x : float) (period : Z) :
  calculateEMA [x] period = Normal [x].
Proof. reflexivity. Qed.

Lemma calculateRSI_returns (closePrices : list float) (period : Z) :
  exists value, calculateRSI closePrices period = Normal value.
Proof.
  unfold calculateRSI.
  destruct (JS.length closePrices <? 2)%Z; [eexists; reflexivity|].
  destruct (rsiLoop _ _ _ _ _) as [gains losses].
  destruct (JS.strict_eq _ _); eexists; reflexivity.
Qed.

(** With a negative period the loop of [calculateRSI] starts past the end
    of the series and its body never runs. *)
Lemma calculateRSI_negative_period (closePrices : list float) (period : Z) :
  (period < 0)%Z ->
  calculateRSI closePrices period =
  Normal (if (JS.length closePrices <? 2)%Z then 50
          else rsiOfAverages (0 / JS.num period) (0 / JS.num period)).
Proof.
  intros Hneg. unfold calculateRSI, rsiOfAverages.
  destruct (JS.length closePrices <? 2)%Z eqn:Hlen; [reflexivity|].
  apply Z.ltb_ge in Hlen.
  rewrite Z.min_r by lia.
  replace (Z.to_nat _) with 0%nat by lia.
  simpl rsiLoop. cbv iota beta.
  destruct (JS.strict_eq _ _); reflexivity.
Qed.

(** C8 as stated fails: with a negative period both functions return. *)
Lemma negative_period_is_not_rejected :
  calculateEMA [1; 2; 3] (-3) = Normal [1; 0; -3] /\
  calculateEMA [1; 2; 3] (-3) <> Throw InvalidArgument /\
  calculateRSI sample_closes (-1) = Normal 100 /\
  calculateRSI sample_closes (-1) <> Throw InvalidArgument.
Proof.
  repeat split; try (vm_compute; reflexivity); vm_compute; discriminate.
Qed.

(** C8, as the code has it: a negative period is not rejected.
    [calculateEMA] returns a series as long as its input, and
    [calculateRSI] returns 50 on fewer than two closes and otherwise the
    value its last lines give for zero gains and zero losses. *)
Theorem negative_period_returns (data : list float) (period : Z) :
  (period < 0)%Z ->
  (exists emaArray,
      calculateEMA data period = Normal emaArray /\
      List.length emaArray = List.length data) /\
  calculateRSI data period =
  Normal (if (JS.length data <? 2)%Z then 50
          else rsiOfAverages (0 / JS.num period) (0 / JS.num period)).
Proof.
  intros Hneg. split.
  - apply calculateEMA_returns.
  - apply calculateRSI_negative_period. exact Hneg.
Qed.

Lemma negative_period_returns_witness :
  (-1 < 0)%Z /\
  calculateRSI sample_closes (-1) =
  Normal (rsiOfAverages (0 / JS.num (-1)) (0 / JS.num (-1))).
Proof.
  split.
  - reflexivity.
  - exact (proj2 (negative_period_returns sample_closes (-1) eq_refl)).
Defined.

(** ** Array reads in range *)

Lemma array_get_in_range {A : Type} (arr : list A) (i : Z) :
  (0 <= i < JS.length arr)%Z ->
  exists x, JS.array_get arr i = Some x.
Proof.
  intros [Hlo Hhi]. unfold JS.array_get, JS.length in *.
  destruct (i <? 0)%Z eqn:E; [apply Z.ltb_lt in E; lia|].
  destruct (nth_error arr (Z.to_nat i)) as [x|] eqn:Hn.
  - exists x. reflexivity.
  - apply nth_error_None in Hn. lia.
Qed.

Lemma array_get_nat {A : Type} (arr : list A) (n : nat) :
  JS.array_get arr (Z.of_nat n) = nth_error arr n.
Proof.
  unfold JS.array_get.
  destruct (Z.of_nat n <? 0)%Z eqn:E; [apply Z.ltb_lt in E; lia|].
  now rewrite Nat2Z.id.
Qed.

(** ** calculateMACD and calculateSupertrend return *)

Lemma calculateMACD_returns (data : list float) (fast slow sig : Z) :
  exists m, calculateMACD data fast slow sig = Normal m.
Proof.
  unfold calculateMACD.
  destruct (calculateEMA_returns data fast) as (fastEMA & -> & _).
  destruct (calculateEMA_returns data slow) as (slowEMA & -> & _).
  cbn [bind].
  match goal with
  | |- context [calculateEMA ?line sig] =>
      destruct (calculateEMA_returns line sig) as (signalLine & -> & _)
  end.
  cbn [bind]. eexists. reflexivity.
Qed.

Lemma calculateSupertrend_returns (candles : list Candle) (period : Z)
    (multiplier : float) :
  candles <> [] ->
  exists st, calculateSupertrend candles period multiplier = Normal st.
Proof.
  intros Hne. unfold calculateSupertrend.
  destruct (JS.length candles <? period + 1)%Z; [eexists; reflexivity|].
  destruct (array_get_in_range candles (JS.length candles - 1)) as [curr ->].
  { unfold JS.length. destruct candles; [congruence|]. simpl List.length. lia. }
  cbn [defined bind].
  destruct (JS.gtb _ _); eexists; reflexivity.
Qed.

(** ** analyzeMarket *)

Lemma readIndicators_returns (candles : list Candle)
    (haCandles : list HeikinAshiCandle) (closes : list float) :
  candles <> [] ->
  (2 <= JS.length haCandles)%Z ->
  exists r,
    readIndicators candles haCandles closes = Normal r /\
    JS.array_get haCandles (JS.length haCandles - 1) = Some (currentHa r) /\
    JS.array_get haCandles (JS.length haCandles - 2) = Some (prevHa r) /\
    price r = close (ha_candle (currentHa r)).
Proof.
  intros Hne Hlen. unfold readIndicators.
  destruct (array_get_in_range haCandles (JS.length haCandles - 1))
    as [cur Hcur]; [lia|].
  destruct (array_get_in_range haCandles (JS.length haCandles - 2))
    as [prev Hprev]; [lia|].
  rewrite Hcur, Hprev. cbn [defined bind].
  destruct (calculateRSI_returns closes 14) as [rsi ->].
  destruct (calculateEMA_returns closes 20) as (e20 & -> & _).
  destruct (calculateEMA_returns closes 50) as (e50 & -> & _).
  destruct (calculateMACD_returns closes 12 26 9) as [m ->].
  destruct (calculateSupertrend_returns candles 10 3 Hne) as [st ->].
  cbn [bind]. eexists. split; [reflexivity|].
  cbn. repeat split.
Qed.

Lemma analyzeMarket_warm (candles : list Candle) :
  (2 <= List.length (calculateHeikinAshi candles))%nat ->
  exists r,
    readIndicators candles (calculateHeikinAshi candles) (map close candles)
      = Normal r /\
    JS.array_get (calculateHeikinAshi candles)
                 (JS.length (calculateHeikinAshi candles) - 1)
      = Some (currentHa r) /\
    price r = close (ha_candle (currentHa r)) /\
    analyzeMarket candles = Normal (finalResult r).
Proof.
  intros Hlen.
  assert (Hne : candles <> []).
  { intros ->. simpl in Hlen. lia. }
  destruct (readIndicators_returns candles (calculateHeikinAshi candles)
              (map close candles) Hne) as (r & Hr & Hcur & _ & Hprice).
  { unfold JS.length. lia. }
  exists r. repeat split; try assumption.
  unfold analyzeMarket.
  destruct (JS.length (calculateHeikinAshi candles) <? 2)%Z eqn:E.
  { apply Z.ltb_lt in E. unfold JS.length in E. lia. }
  rewrite Hr. cbn [bind]. unfold finalResult.
  destruct (tieBreak _ _ _ _) as [s c]. reflexivity.
Qed.

Lemma analyzeMarket_cold (candles : list Candle) :
  (List.length (calculateHeikinAshi candles) < 2)%nat ->
  analyzeMarket candles = Normal coldStart.
Proof.
  intros Hlen. unfold analyzeMarket.
  destruct (JS.length (calculateHeikinAshi candles) <? 2)%Z eqn:E.
  - reflexivity.
  - apply Z.ltb_ge in E. unfold JS.length in E. lia.
Qed.

(** C3. When the Heikin-Ashi transform of the input has fewer than two
    elements, which is so exactly for the empty list and for a
    single-candle list, [analyzeMarket] returns (and does not throw) the
    cold-start result: CALL, confidence 50, rsi 50, ema20 0, ema50 0,
    SIDEWAYS, macd 0/0/0, supertrend UP/0. *)
Theorem analyzeMarket_cold_start (candles : list Candle) :
  (List.length (calculateHeikinAshi candles) < 2)%nat ->
  (candles = [] \/ exists c, candles = [c]) /\
  analyzeMarket candles =
  Normal {| signal := CALL; confidence := 50; rsi := 50; ema20 := 0;
            ema50 := 0; trend := SIDEWAYS;
            macd := {| macd_value := 0; macd_signal := 0; histogram := 0 |};
            supertrend := {| direction := UP; st_value := 0 |} |}.
Proof.
  intros Hlen. split.
  - rewrite calculateHeikinAshi_length in Hlen.
    destruct candles as [|c [|c' rest]]; simpl in Hlen.
    + left. reflexivity.
    + right. exists c. reflexivity.
    + lia.
  - apply analyzeMarket_cold. exact Hlen.
Qed.

Lemma analyzeMarket_cold_start_witness :
  (List.length (calculateHeikinAshi [mkCandle 0 1 5 0 2]) < 2)%nat /\
  analyzeMarket [mkCandle 0 1 5 0 2] = Normal coldStart.
Proof.
  split.
  - vm_compute. lia.
  - apply (analyzeMarket_cold_start [mkCandle 0 1 5 0 2]).
    vm_compute. lia.
Defined.

(** *** The confluence score, by its nine tests *)

Lemma confluence_tally (signal : TradeSignal) (r : Readings) :
  exists t1 t2 t3 t4 t5 t6 t7 t8 t9,
    confluence signal r = tally t1 t2 t3 t4 t5 t6 t7 t8 t9.
Proof.
  unfold confluence.
  destruct (TradeSignal_eqb signal CALL);
    do 9 eexists; unfold tally; reflexivity.
Qed.

(** Whatever the nine tests say, the score is a number: it is below 40
    or at least 40. *)
Lemma tally_total (t1 t2 t3 t4 t5 t6 t7 t8 t9 : bool) :
  (tally t1 t2 t3 t4 t5 t6 t7 t8 t9 <? 40) = false ->
  (40 <=? tally t1 t2 t3 t4 t5 t6 t7 t8 t9) = true.
Proof.
  destruct t1, t2, t3, t4, t5, t6, t7, t8, t9;
    vm_compute; intros H; (reflexivity || discriminate H).
Qed.

(** Whatever the nine tests say, the confidence after the tie-break and
    the cap is between 40 and 99. *)
Lemma tally_final_range (t1 t2 t3 t4 t5 t6 t7 t8 t9 : bool)
    (signal : TradeSignal) (price ema20 : float) :
  let final := tieBreak signal (tally t1 t2 t3 t4 t5 t6 t7 t8 t9) price ema20 in
  (40 <=? JS.Math_min [snd final; 99]) = true /\
  (JS.Math_min [snd final; 99] <=? 99) = true /\
  (JS.Math_min [snd final; 99] <? 40) = false.
Proof.
  destruct t1, t2, t3, t4, t5, t6, t7, t8, t9;
    vm_compute; repeat split; reflexivity.
Qed.

Lemma tieBreak_binary (signal : TradeSignal) (confidence price ema20 : float) :
  signal = CALL \/ signal = PUT ->
  fst (tieBreak signal confidence price ema20) = CALL \/
  fst (tieBreak signal confidence price ema20) = PUT.
Proof.
  intros Hs. unfold tieBreak.
  destruct (confidence <? 40); cbn [fst].
  - destruct (JS.gtb price ema20); [left|right]; reflexivity.
  - exact Hs.
Qed.

Lemma candleSignal_binary (ha : HeikinAshiCandle) :
  candleSignal ha = CALL \/ candleSignal ha = PUT.
Proof.
  unfold candleSignal. destruct (Color_eqb (color ha) green); [left|right]; reflexivity.
Qed.

(** C5. For every input candle list [analyzeMarket] returns a result, and
    its signal is CALL or PUT; NEUTRAL and WAITING are never produced. *)
Theorem analyzeMarket_signal_binary (candles : list Candle) :
  exists result,
    analyzeMarket candles = Normal result /\
    (signal result = CALL \/ signal result = PUT) /\
    signal result <> NEUTRAL /\ signal result <> WAITING.
Proof.
  assert (Hbin : forall s, s = CALL \/ s = PUT ->
                           (s = CALL \/ s = PUT) /\ s <> NEUTRAL /\ s <> WAITING).
  { intros s [-> | ->]; repeat split; auto; discriminate. }
  destruct (Nat.lt_ge_cases (List.length (calculateHeikinAshi candles)) 2)
    as [Hcold | Hwarm].
  - exists coldStart. split.
    + apply analyzeMarket_cold. exact Hcold.
    + apply Hbin. left. reflexivity.
  - destruct (analyzeMarket_warm candles Hwarm) as (r & _ & _ & _ & Hrun).
    exists (finalResult r). split; [exact Hrun|].
    apply Hbin. cbn [finalResult signal].
    apply tieBreak_binary, candleSignal_binary.
Qed.

(** C4. On a window whose Heikin-Ashi transform has at least two
    elements [analyzeMarket] returns a result such that, with [price] the
    close of the last smoothed candle and [accumulated] the confluence
    score: when [accumulated < 40] the signal is CALL if
    [price > ema20] and PUT otherwise and the confidence is exactly 45;
    and in every case the confidence is Math.min of the (possibly
    overridden) confidence and 99. *)
Theorem analyzeMarket_tie_break (candles : list Candle) :
  (2 <= List.length (calculateHeikinAshi candles))%nat ->
  exists r result,
    readIndicators candles (calculateHeikinAshi candles) (map close candles)
      = Normal r /\
    JS.array_get (calculateHeikinAshi candles)
                 (JS.length (calculateHeikinAshi candles) - 1)
      = Some (currentHa r) /\
    price r = close (ha_candle (currentHa r)) /\
    analyzeMarket candles = Normal result /\
    ema20 result = r_ema20 r /\
    let accumulated := confluence (candleSignal (currentHa r)) r in
    ((accumulated <? 40) = true ->
       signal result = (if JS.gtb (price r) (ema20 result) then CALL else PUT) /\
       confidence result = 45) /\
    ((accumulated <? 40) = false ->
       signal result = candleSignal (currentHa r)) /\
    confidence result
      = JS.Math_min [(if accumulated <? 40 then 45 else accumulated); 99].
Proof.
  intros Hwarm.
  destruct (analyzeMarket_warm candles Hwarm) as (r & Hr & Hcur & Hprice & Hrun).
  exists r, (finalResult r).
  repeat (split; [first [exact Hr | exact Hcur | exact Hprice | exact Hrun
                        | reflexivity] |]).
  cbv zeta. unfold finalResult, tieBreak. cbn [signal confidence ema20 fst snd].
  destruct (confluence (candleSignal (currentHa r)) r <? 40) eqn:E;
    cbn [fst snd]; repeat split; try discriminate; try reflexivity.
Qed.

Lemma analyzeMarket_tie_break_witness :
  (2 <= List.length (calculateHeikinAshi tie_window))%nat /\
  exists result,
    analyzeMarket tie_window = Normal result /\
    signal result = PUT /\ confidence result = 45.
Proof.
  split.
  - vm_compute. lia.
  - destruct (analyzeMarket_tie_break tie_window)
      as (r & result & _ & _ & _ & Hrun & _).
    + vm_compute. lia.
    + exists result. split; [exact Hrun|].
      vm_compute in Hrun. apply Normal_inj in Hrun.
      rewrite <- Hrun. split; reflexivity.
Defined.

(** C10. On a window whose Heikin-Ashi transform has at least two
    elements the confidence [analyzeMarket] returns is at least 40 and at
    most 99: a confluence score below 40 is replaced by 45, and any other
    score is at least 40 before it is capped at 99. *)
Theorem analyzeMarket_confidence_range (candles : list Candle) :
  (2 <= List.length (calculateHeikinAshi candles))%nat ->
  exists r result,
    readIndicators candles (calculateHeikinAshi candles) (map close candles)
      = Normal r /\
    analyzeMarket candles = Normal result /\
    (40 <=? confidence result) = true /\
    (confidence result <=? 99) = true /\
    (confidence result <? 40) = false /\
    let accumulated := confluence (candleSignal (currentHa r)) r in
    ((accumulated <? 40) = true /\ confidence result = 45) \/
    ((40 <=? accumulated) = true /\
     confidence result = JS.Math_min [accumulated; 99]).
Proof.
  intros Hwarm.
  destruct (analyzeMarket_warm candles Hwarm) as (r & Hr & _ & _ & Hrun).
  exists r, (finalResult r). split; [exact Hr|]. split; [exact Hrun|].
  cbn [finalResult confidence]. cbv zeta.
  destruct (confluence_tally (candleSignal (currentHa r)) r)
    as (t1 & t2 & t3 & t4 & t5 & t6 & t7 & t8 & t9 & ->).
  destruct (tally_final_range t1 t2 t3 t4 t5 t6 t7 t8 t9
              (candleSignal (currentHa r)) (price r) (r_ema20 r))
    as (Hlo & Hhi & Hnot).
  split; [exact Hlo|]. split; [exact Hhi|]. split; [exact Hnot|].
  unfold tieBreak.
  destruct (tally t1 t2 t3 t4 t5 t6 t7 t8 t9 <? 40) eqn:E; cbn [snd].
  - left. split; reflexivity.
  - right. split; [apply tally_total; exact E | reflexivity].
Qed.

Lemma analyzeMarket_confidence_range_witness :
  (2 <= List.length (calculateHeikinAshi tie_window))%nat /\
  exists result,
    analyzeMarket tie_window = Normal result /\
    (40 <=? confidence result) = true /\
    (confidence result <=? 99) = true.
Proof.
  split.
  - vm_compute. lia.
  - destruct (analyzeMarket_confidence_range tie_window)
      as (r & result & _ & Hrun & Hlo & Hhi & _).
    + vm_compute. lia.
    + exists result. repeat split; assumption.
Defined.

(** ** The wick flags of calculateHeikinAshi *)

Lemma nextHa_wick_flags (prevHa : HeikinAshiCandle) (curr : Candle) :
  hasUpperWick (nextHa prevHa curr)
    = JS.gtb (upperWickSize (nextHa prevHa curr)) EPSILON /\
  hasLowerWick (nextHa prevHa curr)
    = JS.gtb (lowerWickSize (nextHa prevHa curr)) EPSILON.
Proof. split; reflexivity. Qed.

(** Past the first element of the output, [hasUpperWick] and
    [hasLowerWick] are the tests of the wick sizes against the tolerance. *)
Lemma calculateHeikinAshi_wick_flags_after_first (candles : list Candle)
    (i : nat) (ha : HeikinAshiCandle) :
  (0 < i)%nat ->
  nth_error (calculateHeikinAshi candles) i = Some ha ->
  hasUpperWick ha = JS.gtb (upperWickSize ha) EPSILON /\
  hasLowerWick ha = JS.gtb (lowerWickSize ha) EPSILON.
Proof.
  intros Hpos Hha.
  assert (Hi : (i < List.length candles)%nat).
  { rewrite <- calculateHeikinAshi_length. apply nth_error_Some. congruence. }
  destruct (nth_error candles i) as [curr|] eqn:Hcurr;
    [|apply nth_error_None in Hcurr; lia].
  destruct (calculateHeikinAshi_nth candles i curr Hpos Hcurr) as (p & _ & Hn).
  rewrite Hha in Hn. injection Hn as ->.
  apply nextHa_wick_flags.
Qed.

Lemma calculateHeikinAshi_wick_flags_after_first_witness :
  (0 < 1)%nat /\
  exists ha,
    nth_error (calculateHeikinAshi sample_window) 1 = Some ha /\
    hasUpperWick ha = JS.gtb (upperWickSize ha) EPSILON /\
    hasLowerWick ha = JS.gtb (lowerWickSize ha) EPSILON.
Proof.
  split; [lia|].
  eexists. split; [reflexivity|].
  apply (calculateHeikinAshi_wick_flags_after_first sample_window 1);
    [lia | reflexivity].
Defined.

(** C6 at the first element: the candle [faint_wick] gets
    [hasUpperWick = true] although its [upperWickSize] does not exceed the
    tolerance. *)
Theorem first_candle_wick_ignores_tolerance :
  exists ha0,
    nth_error (calculateHeikinAshi [faint_wick]) 0 = Some ha0 /\
    hasUpperWick ha0 = true /\
    upperWickSize ha0 = 0x1.8p-21 /\
    JS.gtb (upperWickSize ha0) EPSILON = false.
Proof.
  eexists. split; [reflexivity|].
  repeat split; vm_compute; reflexivity.
Qed.

(** ** calculateSupertrend *)

Lemma trLoop_length (rest : list Candle) :
  forall prev, List.length (trLoop prev rest) = List.length rest.
Proof.
  induction rest as [|c rest IH]; intros prev; simpl.
  - reflexivity.
  - now rewrite IH.
Qed.

Lemma trueRanges_length (candles : list Candle) :
  List.length (trueRanges candles) = (List.length candles - 1)%nat.
Proof.
  destruct candles as [|c0 rest]; simpl.
  - reflexivity.
  - rewrite trLoop_length. lia.
Qed.

Lemma trLoop_nth (rest : list Candle) :
  forall prev0 i prev curr,
    nth_error (prev0 :: rest) i = Some prev ->
    nth_error rest i = Some curr ->
    nth_error (trLoop prev0 rest) i = Some (trueRange curr prev).
Proof.
  induction rest as [|c rest IH]; intros prev0 i prev curr Hp Hc.
  - destruct i; discriminate.
  - destruct i as [|i]; simpl in *.
    + injection Hp as ->. injection Hc as ->. reflexivity.
    + apply IH; assumption.
Qed.

(** There is one true range per adjacent pair of candles. *)
Lemma trueRanges_nth (candles : list Candle) (i : nat) (prev curr : Candle) :
  nth_error candles i = Some prev ->
  nth_error candles (S i) = Some curr ->
  nth_error (trueRanges candles) i = Some (trueRange curr prev).
Proof.
  intros Hp Hc. destruct candles as [|c0 rest]; [destruct i; discriminate|].
  simpl in Hc. simpl. apply trLoop_nth; assumption.
Qed.

Lemma slice_neg_lastN {A : Type} (n : Z) (l : list A) :
  (1 <= n)%Z -> JS.slice (- n) l = lastN n l.
Proof.
  intros Hn. unfold JS.slice, lastN, JS.length.
  destruct (- n <? 0)%Z eqn:E; [|apply Z.ltb_ge in E; lia].
  f_equal. lia.
Qed.

(** C7. With a period p and a multiplier m, [calculateSupertrend]
    returns UP with value 0 on fewer than p+1 candles.  On p+1 candles or
    more (p a positive count) there is one true range per adjacent pair of
    candles, the largest of high - low, |high - previous close| and
    |low - previous close|; with ATR the simple mean of the last p of
    them (their sum from 0, divided by p) and hl2 the half-sum of the last
    candle's high and low, it returns UP with value hl2 - m*ATR when the
    last close is greater than that value, and DOWN with value
    hl2 + m*ATR otherwise. *)
Theorem calculateSupertrend_spec (candles : list Candle) (p : Z) (m : float) :
  ((JS.length candles < p + 1)%Z ->
     calculateSupertrend candles p m
       = Normal {| direction := UP; st_value := 0 |}) /\
  ((1 <= p)%Z ->
   (p + 1 <= JS.length candles)%Z ->
     exists tr curr,
       List.length tr = (List.length candles - 1)%nat /\
       (forall i prev cur,
           nth_error candles i = Some prev ->
           nth_error candles (S i) = Some cur ->
           nth_error tr i
           = Some (JS.Math_max [high cur - low cur;
                                abs (high cur - close prev);
                                abs (low cur - close prev)])) /\
       nth_error candles (List.length candles - 1) = Some curr /\
       let atr :=
         fold_left (fun a b => a + b)
                   (skipn (List.length tr - Z.to_nat p) tr) 0
         / JS.num p in
       let hl2 := (high curr + low curr) / 2 in
       let basicLower := hl2 - m * atr in
       let basicUpper := hl2 + m * atr in
       calculateSupertrend candles p m
         = Normal (if basicLower <? close curr
                   then {| direction := UP; st_value := basicLower |}
                   else {| direction := DOWN; st_value := basicUpper |})).
Proof.
  split; [intros Hlen | intros Hp Hlen]; unfold calculateSupertrend.
  - apply Z.ltb_lt in Hlen. rewrite Hlen. reflexivity.
  - destruct (JS.length candles <? p + 1)%Z eqn:E;
      [apply Z.ltb_lt in E; lia|].
    assert (Htr : (JS.length (trueRanges candles) >=? p)%Z = true).
    { apply Z.geb_le. unfold JS.length in *. rewrite trueRanges_length. lia. }
    rewrite Htr, (slice_neg_lastN p _ Hp).
    destruct (array_get_in_range candles (JS.length candles - 1))
      as [curr Hcurr]; [lia|].
    rewrite Hcurr. cbn [defined bind].
    exists (trueRanges candles), curr.
    split; [apply trueRanges_length|]. split; [|split].
    + intros i prev cur Hprev Hcur.
      rewrite (trueRanges_nth candles i prev cur Hprev Hcur). reflexivity.
    + rewrite <- Hcurr. unfold JS.length.
      replace (Z.of_nat (List.length candles) - 1)%Z
        with (Z.of_nat (List.length candles - 1)).
      * symmetry. apply array_get_nat.
      * unfold JS.length in Hlen. lia.
    + cbv zeta. unfold lastN, JS.sum, JS.gtb.
      destruct (_ <? close curr); reflexivity.
Qed.

Lemma calculateSupertrend_spec_witness :
  (JS.length gap_window < 10 + 1)%Z /\
  calculateSupertrend gap_window 10 3
    = Normal {| direction := UP; st_value := 0 |} /\
  (1 <= 2)%Z /\ (2 + 1 <= JS.length gap_window)%Z /\
  calculateSupertrend gap_window 2 0.25
    = Normal {| direction := DOWN; st_value := 8.875 |}.
Proof.
  split; [vm_compute; reflexivity|]. split.
  - apply (proj1 (calculateSupertrend_spec gap_window 10 3)).
    vm_compute. reflexivity.
  - split; [lia|]. split; [vm_compute; discriminate|].
    destruct (proj2 (calculateSupertrend_spec gap_window 2 0.25))
      as (tr & curr & Hlen & Hnth & Hcurr & Hrun).
    + lia.
    + vm_compute. discriminate.
    + rewrite Hrun. clear Hrun.
      pose proof (Hnth 0%nat _ _ eq_refl eq_refl) as H0.
      pose proof (Hnth 1%nat _ _ eq_refl eq_refl) as H1.
      pose proof (Hnth 2%nat _ _ eq_refl eq_refl) as H2.
      destruct tr as [|t0 [|t1 [|t2 [|t3 tr]]]]; try discriminate Hlen.
      cbn [nth_error] in H0, H1, H2.
      apply (f_equal (fun o => match o with Some v => v | None => t0 end)) in H0.
      apply (f_equal (fun o => match o with Some v => v | None => t1 end)) in H1.
      apply (f_equal (fun o => match o with Some v => v | None => t2 end)) in H2.
      vm_compute in Hcurr.
      apply (f_equal (fun o => match o with
                               | Some v => v
                               | None => mkCandle 0 0 0 0 0
                               end)) in Hcurr.
      cbn iota in Hcurr.
      subst t0 t1 t2 curr. vm_compute. reflexivity.
Defined.

(** ** A second Heikin-Ashi pass *)

(** The smoothed close at every index is [ohlc4] of the raw candle. *)
Lemma calculateHeikinAshi_close (candles : list Candle) (i : nat) (c : Candle) :
  nth_error candles i = Some c ->
  exists ha,
    nth_error (calculateHeikinAshi candles) i = Some ha /\
    close (ha_candle ha) = ohlc4 c.
Proof.
  intros Hc. destruct i as [|i].
  - destruct candles as [|first rest]; [discriminate|].
    simpl in Hc. injection Hc as ->.
    exists (firstHa c). split; reflexivity.
  - destruct (calculateHeikinAshi_nth candles (S i) c ltac:(lia) Hc)
      as (p & _ & Hn).
    exists (nextHa p c). split; [exact Hn|reflexivity].
Qed.

(** C9 as stated fails: [sample_window] has two non-degenerate candles
    and the second pass over it returns the first pass unchanged. *)
Lemma second_pass_fixed_window :
  (2 <= List.length sample_window)%nat /\
  forallb nondegenerate sample_window = true /\
  calculateHeikinAshi (map ha_candle (calculateHeikinAshi sample_window))
    = calculateHeikinAshi sample_window.
Proof.
  repeat split; vm_compute; (reflexivity || lia).
Qed.

(** C9, as the code has it: the second pass differs from the first
    whenever some smoothed candle's close is not the quarter-sum of its
    own open, high, low and close. *)
Theorem second_pass_differs (candles : list Candle) :
  (exists i ha,
      nth_error (calculateHeikinAshi candles) i = Some ha /\
      ohlc4 (ha_candle ha) <> close (ha_candle ha)) ->
  calculateHeikinAshi (map ha_candle (calculateHeikinAshi candles))
    <> calculateHeikinAshi candles.
Proof.
  intros (i & ha & Hha & Hneq) Hsame.
  destruct (calculateHeikinAshi_close
              (map ha_candle (calculateHeikinAshi candles)) i (ha_candle ha))
    as (ha' & Hha' & Hclose).
  { rewrite nth_error_map, Hha. reflexivity. }
  rewrite Hsame, Hha in Hha'. injection Hha' as <-.
  apply Hneq. symmetry. exact Hclose.
Qed.

Lemma tie_window_first_close_moves :
  exists i ha,
    nth_error (calculateHeikinAshi tie_window) i = Some ha /\
    ohlc4 (ha_candle ha) <> close (ha_candle ha).
Proof.
  exists 0%nat, (firstHa (mkCandle 0 10 10 1 9)).
  split; [reflexivity|].
  float_neq.
Qed.

Lemma second_pass_differs_witness :
  (exists i ha,
      nth_error (calculateHeikinAshi tie_window) i = Some ha /\
      ohlc4 (ha_candle ha) <> close (ha_candle ha)) /\
  calculateHeikinAshi (map ha_candle (calculateHeikinAshi tie_window))
    <> calculateHeikinAshi tie_window.
Proof.
  split.
  - exact tie_window_first_close_moves.
  - exact (second_pass_differs tie_window tie_window_first_close_moves).
Defined.

(** * Further properties of the indicator bank *)

(** ** calculateHeikinAshi: what an element depends on *)

Lemma haLoop_firstn (l1 l2 : list Candle) :
  forall prevHa,
    firstn (List.length l1) (haLoop prevHa (l1 ++ l2)) = haLoop prevHa l1.
Proof.
  induction l1 as [|c l1 IH]; intros prevHa; simpl.
  - reflexivity.
  - now rewrite IH.
Qed.

(** Candles that arrive later never change the smoothed candles already
    computed: the transform of a window extended by [later] starts with the
    transform of the window. *)
Theorem calculateHeikinAshi_prefix (candles later : list Candle) :
  firstn (List.length candles) (calculateHeikinAshi (candles ++ later))
  = calculateHeikinAshi candles.
Proof.
  destruct candles as [|first rest]; simpl.
  - reflexivity.
  - now rewrite haLoop_firstn.
Qed.

Lemma haLoop_times (rest : list Candle) :
  forall prevHa,
    map (fun ha => time (ha_candle ha)) (haLoop prevHa rest) = map time rest.
Proof.
  induction rest as [|c rest IH]; intros prevHa; simpl.
  - reflexivity.
  - now rewrite IH.
Qed.

(** The transform keeps every timestamp, in order, and with them the
    number of candles; the empty window gives the empty result. *)
Theorem calculateHeikinAshi_times (candles : list Candle) :
  map (fun ha => time (ha_candle ha)) (calculateHeikinAshi candles)
  = map time candles.
Proof.
  destruct candles as [|first rest]; simpl.
  - reflexivity.
  - now rewrite haLoop_times.
Qed.

(** ** calculateEMA: seed, recurrence and prefixes *)

Lemma emaLoop_nth (k : float) (rest : list float) :
  forall prevEma i currentPrice,
    nth_error rest i = Some currentPrice ->
    exists prev,
      nth_error (prevEma :: emaLoop k prevEma rest) i = Some prev /\
      nth_error (emaLoop k prevEma rest) i
        = Some ((currentPrice - prev) * k + prev).
Proof.
  induction rest as [|x rest IH]; intros prevEma i currentPrice Hi.
  - destruct i; discriminate.
  - destruct i as [|i]; simpl in Hi.
    + apply (f_equal (fun o => match o with Some v => v | None => x end)) in Hi.
      subst x. exists prevEma. split; reflexivity.
    + destruct (IH ((x - prevEma) * k + prevEma) i currentPrice Hi)
        as (prev & Hp & Hn).
      exists prev. split; assumption.
Qed.

(** The series [calculateEMA] returns starts at [data[0]], and each later
    value is [(data[i] - ema[i-1]) * k + ema[i-1]] with
    [k = 2 / (period + 1)]. *)
Theorem calculateEMA_recurrence (data : list float) (period : Z) :
  exists emaArray,
    calculateEMA data period = Normal emaArray /\
    List.length emaArray = List.length data /\
    nth_error emaArray 0 = nth_error data 0 /\
    forall i currentPrice,
      nth_error data (S i) = Some currentPrice ->
      exists prevEma,
        nth_error emaArray i = Some prevEma /\
        nth_error emaArray (S i)
          = Some ((currentPrice - prevEma) * (2 / (JS.num period + 1))
                  + prevEma).
Proof.
  unfold calculateEMA. destruct data as [|x rest].
  - exists []. repeat split; try reflexivity.
    intros i c Hc. destruct i; discriminate.
  - eexists. split; [reflexivity|]. split; [|split].
    + simpl. now rewrite emaLoop_length.
    + reflexivity.
    + intros i c Hc. simpl in Hc.
      destruct (emaLoop_nth (2 / (JS.num period + 1)) rest x i c Hc)
        as (prev & Hp & Hn).
      exists prev. split; assumption.
Qed.

Lemma emaLoop_firstn (k : float) (d1 d2 : list float) :
  forall prevEma,
    firstn (List.length d1) (emaLoop k prevEma (d1 ++ d2))
    = emaLoop k prevEma d1.
Proof.
  induction d1 as [|x d1 IH]; intros prevEma; simpl.
  - reflexivity.
  - now rewrite IH.
Qed.

(** Prices that arrive later never change the averages already computed:
    the EMA of a series extended by [later] starts with the EMA of the
    series. *)
Theorem calculateEMA_prefix (data later : list float) (period : Z) :
  exists emaArray extended,
    calculateEMA data period = Normal emaArray /\
    calculateEMA (data ++ later) period = Normal extended /\
    firstn (List.length data) extended = emaArray.
Proof.
  unfold calculateEMA. destruct data as [|x rest].
  - destruct later as [|y later]; do 2 eexists;
      (split; [reflexivity|]); (split; [reflexivity|]); reflexivity.
  - do 2 eexists. split; [reflexivity|]. split; [reflexivity|].
    simpl. now rewrite emaLoop_firstn.
Qed.

(** ** calculateRSI: the window it reads *)

Lemma array_get_skipn {A : Type} (d : nat) (arr : list A) (j : Z) :
  (0 <= j)%Z ->
  JS.array_get (skipn d arr) j = JS.array_get arr (j + Z.of_nat d).
Proof.
  intros Hj. unfold JS.array_get.
  destruct (j <? 0)%Z eqn:E1; [apply Z.ltb_lt in E1; lia|].
  destruct (j + Z.of_nat d <? 0)%Z eqn:E2; [apply Z.ltb_lt in E2; lia|].
  rewrite nth_error_skipn. f_equal. lia.
Qed.

Lemma rsiLoop_skipn (d : nat) (closePrices : list float) (n : nat) :
  forall i gains losses,
    (1 <= i)%Z ->
    rsiLoop n i (skipn d closePrices) gains losses
    = rsiLoop n (i + Z.of_nat d) closePrices gains losses.
Proof.
  induction n as [|n IH]; intros i gains losses Hi; simpl.
  - reflexivity.
  - rewrite !array_get_skipn by lia.
    replace (i - 1 + Z.of_nat d)%Z with (i + Z.of_nat d - 1)%Z by lia.
    replace (i + Z.of_nat d + 1)%Z with (i + 1 + Z.of_nat d)%Z by lia.
    destruct (JS.geb _ _); apply IH; lia.
Qed.

(** [calculateRSI] reads only the last [period + 1] closes: dropping the
    older ones does not change its result. *)
Theorem calculateRSI_window (closePrices : list float) (period : Z) :
  (1 <= period)%Z ->
  calculateRSI closePrices period
  = calculateRSI (lastN (period + 1) closePrices) period.
Proof.
  intros Hp. unfold lastN.
  destruct (Nat.le_gt_cases (List.length closePrices) (Z.to_nat (period + 1)))
    as [Hshort | Hlong].
  - replace (List.length closePrices - Z.to_nat (period + 1))%nat with 0%nat
      by lia.
    reflexivity.
  - set (d := (List.length closePrices - Z.to_nat (period + 1))%nat).
    unfold calculateRSI, JS.length.
    rewrite length_skipn. fold d.
    destruct (Z.of_nat (List.length closePrices) <? 2)%Z eqn:E1;
      [apply Z.ltb_lt in E1; lia|].
    destruct (Z.of_nat (List.length closePrices - d) <? 2)%Z eqn:E2;
      [apply Z.ltb_lt in E2; lia|].
    rewrite !Z.min_r by lia.
    rewrite rsiLoop_skipn by lia.
    replace (Z.of_nat (List.length closePrices - d) - period + Z.of_nat d)%Z
      with (Z.of_nat (List.length closePrices) - period)%Z by lia.
    replace (Z.of_nat (List.length closePrices - d)
             - (Z.of_nat (List.length closePrices - d) - period))%Z
      with (Z.of_nat (List.length closePrices)
            - (Z.of_nat (List.length closePrices) - period))%Z by lia.
    reflexivity.
Qed.

Lemma calculateRSI_window_witness :
  (1 <= 1)%Z /\
  calculateRSI sample_closes 1 = calculateRSI [11; 10.5] 1.
Proof.
  split; [lia|].
  exact (calculateRSI_window sample_closes 1 ltac:(lia)).
Defined.

(** A period longer than the series is clamped to the number of changes
    the series has. *)
Theorem calculateRSI_clamped (closePrices : list float) (period : Z) :
  (JS.length closePrices - 1 <= period)%Z ->
  calculateRSI closePrices period
  = calculateRSI closePrices (JS.length closePrices - 1).
Proof.
  intros Hp. unfold calculateRSI.
  destruct (JS.length closePrices <? 2)%Z; [reflexivity|].
  rewrite Z.min_l by lia. rewrite Z.min_id. reflexivity.
Qed.

Lemma calculateRSI_clamped_witness :
  (JS.length sample_closes - 1 <= 14)%Z /\
  calculateRSI sample_closes 14 = calculateRSI sample_closes 2.
Proof.
  split.
  - vm_compute. discriminate.
  - apply (calculateRSI_clamped sample_closes 14). vm_compute. discriminate.
Defined.

Lemma rsiLoop_no_loss (closePrices : list float) (n : nat) :
  neverFalls closePrices ->
  forall i gains losses,
    (1 <= i)%Z ->
    (i + Z.of_nat n <= JS.length closePrices)%Z ->
    snd (rsiLoop n i closePrices gains losses) = losses.
Proof.
  intros Hup. induction n as [|n IH]; intros i gains losses Hlo Hhi; simpl.
  - reflexivity.
  - rewrite (Hup i) by lia. apply IH; lia.
Qed.

(** Dividing zero by a count from 1 to 1000 gives zero. *)
Lemma zero_over_count (z : Z) :
  (1 <= z <= 1000)%Z -> JS.strict_eq (0 / JS.num z) 0 = true.
Proof.
  intros Hz.
  assert (Hall : forallb (fun n => JS.strict_eq (0 / JS.num (Z.of_nat n)) 0)
                         (seq 1 1000) = true)
    by (vm_compute; reflexivity).
  rewrite forallb_forall in Hall.
  specialize (Hall (Z.to_nat z)).
  rewrite Z2Nat.id in Hall by lia.
  apply Hall. apply in_seq. lia.
Qed.

(** On a series of at least two closes that never falls, the RSI is
    exactly 100, for every period from 1 to 1000. *)
Theorem calculateRSI_never_falls (closePrices : list float) (period : Z) :
  (2 <= JS.length closePrices)%Z ->
  (1 <= period <= 1000)%Z ->
  neverFalls closePrices ->
  calculateRSI closePrices period = Normal 100.
Proof.
  intros Hlen Hp Hup. unfold calculateRSI.
  destruct (JS.length closePrices <? 2)%Z eqn:E;
    [apply Z.ltb_lt in E; lia|].
  set (ep := Z.min (JS.length closePrices - 1) period).
  assert (Hep : (1 <= ep <= 1000)%Z) by (unfold ep; lia).
  pose proof (rsiLoop_no_loss closePrices
                (Z.to_nat (JS.length closePrices
                           - (JS.length closePrices - ep)))
                Hup (JS.length closePrices - ep) 0 0) as Hloss.
  destruct (rsiLoop _ _ _ _ _) as [gains losses].
  simpl in Hloss. rewrite Hloss by lia.
  rewrite (zero_over_count ep Hep). reflexivity.
Qed.

Lemma rising_closes_never_fall : neverFalls rising_closes.
Proof.
  intros i Hi. unfold JS.length in Hi. simpl in Hi.
  assert (Hcases : i = 1%Z \/ i = 2%Z \/ i = 3%Z) by lia.
  destruct Hcases as [-> | [-> | ->]]; vm_compute; reflexivity.
Qed.

Lemma calculateRSI_never_falls_witness :
  (2 <= JS.length rising_closes)%Z /\ (1 <= 14 <= 1000)%Z /\
  neverFalls rising_closes /\
  calculateRSI rising_closes 14 = Normal 100.
Proof.
  assert (Hlen : (2 <= JS.length rising_closes)%Z)
    by (vm_compute; discriminate).
  split; [exact Hlen|]. split; [lia|].
  split; [exact rising_closes_never_fall|].
  exact (calculateRSI_never_falls rising_closes 14 Hlen ltac:(lia)
           rising_closes_never_fall).
Defined.

(** ** calculateSupertrend: when it throws *)

(** [calculateSupertrend] throws only when it is given no candle together
    with a negative period: the early return is then not taken and the
    last candle it reads is [undefined]. *)
Theorem calculateSupertrend_throws_iff (candles : list Candle) (period : Z)
    (multiplier : float) :
  (exists e, calculateSupertrend candles period multiplier = Throw e)
  <-> (candles = [] /\ (period < 0)%Z).
Proof.
  split.
  - intros [e He].
    destruct candles as [|c rest].
    + split; [reflexivity|].
      unfold calculateSupertrend in He.
      destruct (JS.length (@nil Candle) <? period + 1)%Z eqn:E;
        [discriminate He|].
      apply Z.ltb_ge in E. unfold JS.length in E. simpl in E. lia.
    + destruct (calculateSupertrend_returns (c :: rest) period multiplier)
        as [st Hst]; [discriminate|].
      rewrite Hst in He. discriminate He.
  - intros [-> Hneg]. exists TypeError. unfold calculateSupertrend.
    destruct (JS.length (@nil Candle) <? period + 1)%Z eqn:E.
    + apply Z.ltb_lt in E. unfold JS.length in E. simpl in E. lia.
    + reflexivity.
Qed.

(** ** analyzeMarket: what it reports *)

Lemma bind_Normal {A B : Type} (c : completion A) (k : A -> completion B)
    (b : B) :
  bind c k = Normal b -> exists a, c = Normal a /\ k a = Normal b.
Proof.
  destruct c as [a|e]; simpl; intros H.
  - exists a. split; [reflexivity|exact H].
  - discriminate H.
Qed.

(** The readings are the indicator functions' values on the raw closes
    and the raw candles. *)
Lemma readIndicators_inv (candles : list Candle)
    (haCandles : list HeikinAshiCandle) (closes : list float) (r : Readings) :
  readIndicators candles haCandles closes = Normal r ->
  calculateRSI closes 14 = Normal (r_rsi r) /\
  calculateMACD closes 12 26 9 = Normal (r_macd r) /\
  calculateSupertrend candles 10 3 = Normal (r_supertrend r) /\
  (exists ema20Arr,
      calculateEMA closes 20 = Normal ema20Arr /\
      r_ema20 r =
        if (JS.length ema20Arr >? 0)%Z
        then JS.to_number (JS.array_get ema20Arr (JS.length ema20Arr - 1))
        else price r) /\
  (exists ema50Arr,
      calculateEMA closes 50 = Normal ema50Arr /\
      r_ema50 r =
        if (JS.length ema50Arr >? 0)%Z
        then JS.to_number (JS.array_get ema50Arr (JS.length ema50Arr - 1))
        else price r).
Proof.
  unfold readIndicators. intros H.
  apply bind_Normal in H. destruct H as (cur & Hcur & H).
  apply bind_Normal in H. destruct H as (prev & Hprev & H).
  apply bind_Normal in H. destruct H as (rsi & Hrsi & H).
  apply bind_Normal in H. destruct H as (e20 & He20 & H).
  apply bind_Normal in H. destruct H as (e50 & He50 & H).
  apply bind_Normal in H. destruct H as (m & Hm & H).
  apply bind_Normal in H. destruct H as (st & Hst & H).
  apply Normal_inj in H. subst r. cbn.
  repeat split; try assumption.
  - exists e20. split; [exact He20|reflexivity].
  - exists e50. split; [exact He50|reflexivity].
Qed.

Lemma last_read {A : Type} (arr : list A) (n : nat) :
  List.length arr = n -> (0 < n)%nat ->
  exists x,
    nth_error arr (n - 1) = Some x /\
    JS.array_get arr (JS.length arr - 1) = Some x /\
    (JS.length arr >? 0)%Z = true.
Proof.
  intros Hlen Hpos.
  destruct (array_get_in_range arr (JS.length arr - 1)) as [x Hx].
  { unfold JS.length. lia. }
  exists x. split; [|split].
  - rewrite <- Hx. unfold JS.length.
    replace (Z.of_nat (List.length arr) - 1)%Z with (Z.of_nat (n - 1)) by lia.
    symmetry. apply array_get_nat.
  - exact Hx.
  - apply Z.gtb_lt. unfold JS.length. lia.
Qed.

(** On a window of at least two candles [analyzeMarket] reports the
    indicator functions' own values, all computed on the raw closes and raw
    candles (not on the smoothed ones): the RSI of period 14, the last
    values of the EMAs of periods 20 and 50, the MACD of 12/26/9 and the
    Supertrend of 10/3; the trend label is UP when ema20 > ema50, DOWN
    when ema20 < ema50, and SIDEWAYS otherwise. *)
Theorem analyzeMarket_reports (candles : list Candle) :
  (2 <= List.length candles)%nat ->
  exists result ema20Arr ema50Arr,
    analyzeMarket candles = Normal result /\
    calculateRSI (map close candles) 14 = Normal (rsi result) /\
    calculateMACD (map close candles) 12 26 9 = Normal (macd result) /\
    calculateSupertrend candles 10 3 = Normal (supertrend result) /\
    calculateEMA (map close candles) 20 = Normal ema20Arr /\
    nth_error ema20Arr (List.length candles - 1) = Some (ema20 result) /\
    calculateEMA (map close candles) 50 = Normal ema50Arr /\
    nth_error ema50Arr (List.length candles - 1) = Some (ema50 result) /\
    trend result
    = (if ema50 result <? ema20 result then TrendUP
       else if ema20 result <? ema50 result then TrendDOWN
       else SIDEWAYS).
Proof.
  intros Hlen.
  destruct (analyzeMarket_warm candles) as (r & Hr & _ & _ & Hrun).
  { rewrite calculateHeikinAshi_length. exact Hlen. }
  destruct (readIndicators_inv _ _ _ _ Hr)
    as (Hrsi & Hmacd & Hst & (e20 & He20 & H20) & (e50 & He50 & H50)).
  exists (finalResult r), e20, e50.
  split; [exact Hrun|]. cbn [finalResult rsi macd supertrend ema20 ema50 trend].
  repeat (split; [assumption|]).
  destruct (calculateEMA_returns (map close candles) 20) as (a20 & Ha20 & Hl20).
  destruct (calculateEMA_returns (map close candles) 50) as (a50 & Ha50 & Hl50).
  rewrite Ha20 in He20. apply Normal_inj in He20. subst a20.
  rewrite Ha50 in He50. apply Normal_inj in He50. subst a50.
  rewrite length_map in Hl20, Hl50.
  destruct (last_read e20 _ Hl20 ltac:(lia)) as (x20 & Hn20 & Hg20 & Hp20).
  destruct (last_read e50 _ Hl50 ltac:(lia)) as (x50 & Hn50 & Hg50 & Hp50).
  rewrite Hp20, Hg20 in H20. rewrite Hp50, Hg50 in H50. cbn in H20, H50.
  rewrite H20, H50.
  repeat split; assumption.
Qed.

Lemma analyzeMarket_reports_witness :
  (2 <= List.length sample_window)%nat /\
  exists result,
    analyzeMarket sample_window = Normal result /\
    calculateRSI (map close sample_window) 14 = Normal (rsi result) /\
    trend result = TrendUP.
Proof.
  split; [vm_compute; lia|].
  destruct (analyzeMarket_reports sample_window)
    as (result & e20 & e50 & Hrun & Hrsi & _ & _ & He20 & Hn20 & He50 & Hn50
        & Htrend).
  - vm_compute. lia.
  - exists result. split; [exact Hrun|]. split; [exact Hrsi|].
    rewrite Htrend. clear Htrend.
    vm_compute in He20. apply Normal_inj in He20. subst e20.
    vm_compute in He50. apply Normal_inj in He50. subst e50.
    cbn [sample_window List.length Nat.sub nth_error] in Hn20, Hn50.
    apply (f_equal (fun o => match o with Some v => v | None => 0 end)) in Hn20.
    apply (f_equal (fun o => match o with Some v => v | None => 0 end)) in Hn50.
    cbn iota in Hn20, Hn50. rewrite <- Hn20, <- Hn50.
    vm_compute. reflexivity.
Defined.

(** With two to ten candles the Supertrend has too little history: the
    result carries the placeholder UP / 0. *)
Theorem analyzeMarket_supertrend_cold (candles : list Candle) :
  (2 <= List.length candles <= 10)%nat ->
  exists result,
    analyzeMarket candles = Normal result /\
    supertrend result = {| direction := UP; st_value := 0 |}.
Proof.
  intros Hlen.
  destruct (analyzeMarket_warm candles) as (r & Hr & _ & _ & Hrun).
  { rewrite calculateHeikinAshi_length. lia. }
  destruct (readIndicators_inv _ _ _ _ Hr) as (_ & _ & Hst & _).
  exists (finalResult r). split; [exact Hrun|].
  cbn [finalResult supertrend].
  unfold calculateSupertrend in Hst.
  destruct (JS.length candles <? 10 + 1)%Z eqn:E.
  - apply Normal_inj in Hst. symmetry. exact Hst.
  - apply Z.ltb_ge in E. unfold JS.length in E. lia.
Qed.

Lemma analyzeMarket_supertrend_cold_witness :
  (2 <= List.length sample_window <= 10)%nat /\
  exists result,
    analyzeMarket sample_window = Normal result /\
    supertrend result = {| direction := UP; st_value := 0 |}.
Proof.
  split; [vm_compute; lia|].
  apply (analyzeMarket_supertrend_cold sample_window). vm_compute. lia.
Defined.

Lemma tally_final_level (t1 t2 t3 t4 t5 t6 t7 t8 t9 : bool)
    (signal : TradeSignal) (price ema20 : float) :
  In (JS.Math_min
        [snd (tieBreak signal (tally t1 t2 t3 t4 t5 t6 t7 t8 t9) price ema20);
         99])
     (map JS.num confidenceLevels).
Proof.
  destruct t1, t2, t3, t4, t5, t6, t7, t8, t9;
    vm_compute; repeat (try (left; reflexivity); right).
Qed.

(** A helper: [analyzeMarket] returns on every input, the cold-start
    record or [finalResult] of the readings. *)
Lemma analyzeMarket_total (candles : list Candle) :
  analyzeMarket candles = Normal coldStart \/
  exists r, analyzeMarket candles = Normal (finalResult r).
Proof.
  destruct (Nat.lt_ge_cases (List.length (calculateHeikinAshi candles)) 2)
    as [Hcold | Hwarm].
  - left. apply analyzeMarket_cold. exact Hcold.
  - right. destruct (analyzeMarket_warm candles Hwarm) as (r & _ & _ & _ & Hrun).
    exists r. exact Hrun.
Qed.

(** On every input the confidence [analyzeMarket] returns is a whole
    number: a multiple of 5 from 40 to 95, or 99. *)
Theorem analyzeMarket_confidence_whole (candles : list Candle) :
  exists result level,
    analyzeMarket candles = Normal result /\
    In level confidenceLevels /\
    confidence result = JS.num level.
Proof.
  assert (Hlevel : forall c, In c (map JS.num confidenceLevels) ->
                             exists level, In level confidenceLevels /\
                                           c = JS.num level).
  { intros c Hc. apply in_map_iff in Hc. destruct Hc as (z & Hz & Hin).
    exists z. split; [exact Hin|symmetry; exact Hz]. }
  destruct (analyzeMarket_total candles) as [Hcold | [r Hrun]].
  - exists coldStart, 50%Z. split; [exact Hcold|].
    split; [simpl; tauto|vm_compute; reflexivity].
  - destruct (confluence_tally (candleSignal (currentHa r)) r)
      as (t1 & t2 & t3 & t4 & t5 & t6 & t7 & t8 & t9 & Ht).
    destruct (Hlevel (confidence (finalResult r))) as (level & Hin & Hc).
    { cbn [finalResult confidence]. rewrite Ht. apply tally_final_level. }
    exists (finalResult r), level. repeat split; assumption.
Qed.

(** * The feed handler *)

Lemma intervalSeconds_positive (timeframe : Timeframe) :
  (0 < intervalSeconds timeframe)%Z.
Proof. destruct timeframe; reflexivity. Qed.

(** [slice(-100)] keeps a list of at most 100 elements and drops the first
    of a list of 101. *)
Lemma slice_last100_length {A : Type} (l : list A) :
  List.length (JS.slice (-100) l) = Nat.min 100 (List.length l).
Proof.
  unfold JS.slice, JS.length. cbn [Z.ltb Z.compare].
  rewrite length_skipn. lia.
Qed.



Section FeedProperties.

Variable timeframe : Timeframe.
Variable random : nat -> float.

(** ** generateInitialHistory *)

Lemma historyLoop_length (basePrice : float) (baseTime : Z) (i : nat) :
  forall draw currentPrice,
    List.length
      (historyLoop timeframe random basePrice baseTime i draw currentPrice)
    = i.
Proof.
  induction i as [|i IH]; intros draw currentPrice; simpl.
  - reflexivity.
  - now rewrite IH.
Qed.

Lemma historyLoop_head (basePrice : float) (baseTime : Z) (i : nat)
    (draw : nat) (currentPrice : float) (c : Candle) :
  nth_error
    (historyLoop timeframe random basePrice baseTime i draw currentPrice) 0
  = Some c ->
  open c = currentPrice.
Proof.
  destruct i as [|i]; simpl; intros H.
  - discriminate H.
  - injection H as <-. reflexivity.
Qed.

Lemma historyLoop_chain (basePrice : float) (baseTime : Z) (i : nat) :
  forall draw currentPrice k a b,
    let h :=
      historyLoop timeframe random basePrice baseTime i draw currentPrice in
    nth_error h k = Some a ->
    nth_error h (S k) = Some b ->
    open b = close a.
Proof.
  induction i as [|i IH]; intros draw currentPrice k a b h Ha Hb; subst h.
  - destruct k; discriminate Ha.
  - destruct k as [|k].
    + cbn [historyLoop nth_error] in Ha, Hb.
      apply historyLoop_head in Hb. rewrite Hb.
      apply (f_equal (fun o => match o with Some v => close v | None => 0 end))
        in Ha.
      rewrite <- Ha. reflexivity.
    + cbn [historyLoop nth_error] in Ha, Hb.
      exact (IH _ _ k a b Ha Hb).
Qed.

Lemma historyLoop_time (basePrice : float) (baseTime : Z) (i : nat) :
  forall draw currentPrice k c,
    nth_error
      (historyLoop timeframe random basePrice baseTime i draw currentPrice) k
    = Some c ->
    time c
    = JS.num (baseTime
              - (Z.of_nat i - Z.of_nat k) * intervalSeconds timeframe).
Proof.
  induction i as [|i IH]; intros draw currentPrice k c Hc.
  - destruct k; discriminate Hc.
  - destruct k as [|k]; cbn [historyLoop nth_error] in Hc.
    + injection Hc as <-. cbn [time]. f_equal; lia.
    + rewrite (IH _ _ k c Hc). f_equal; lia.
Qed.

(** Whatever [Math.random] returns, the generated history has 60 candles;
    the first opens at the base price, each later one opens at the close
    of the one before it, and candle [k] is stamped [60 - k] intervals
    before the base time. *)
Theorem generateInitialHistory_shape (basePrice : float) (baseTime : Z) :
  let history := generateInitialHistory timeframe random basePrice baseTime in
  List.length history = 60%nat /\
  (exists first, nth_error history 0 = Some first /\ open first = basePrice) /\
  (forall k a b,
      nth_error history k = Some a ->
      nth_error history (S k) = Some b ->
      open b = close a) /\
  (forall k c,
      nth_error history k = Some c ->
      time c
      = JS.num (baseTime - (60 - Z.of_nat k) * intervalSeconds timeframe)).
Proof.
  unfold generateInitialHistory. cbv zeta. split; [|split; [|split]].
  - apply historyLoop_length.
  - eexists. split; reflexivity.
  - intros k a b. apply historyLoop_chain.
  - intros k c Hc. apply historyLoop_time in Hc. exact Hc.
Qed.

(** ** onmessage: the invariant of a session *)

Lemma analyzeMarket_returns (candles : list Candle) :
  exists result, analyzeMarket candles = Normal result.
Proof.
  destruct (analyzeMarket_total candles) as [H | [r H]]; eexists; exact H.
Qed.

Lemma analyzeMarket_binary (candles : list Candle) (result : AnalysisResult) :
  analyzeMarket candles = Normal result ->
  signal result = CALL \/ signal result = PUT.
Proof.
  intros Hrun.
  destruct (analyzeMarket_total candles) as [H | [r H]];
    rewrite H in Hrun; apply Normal_inj in Hrun; subst result.
  - left. reflexivity.
  - cbn [finalResult signal]. apply tieBreak_binary, candleSignal_binary.
Qed.

Lemma feedInv_initial : feedInv initialFeed.
Proof.
  unfold feedInv, initialFeed. cbn. repeat split; try lia; discriminate.
Qed.

Lemma onmessage_feedInv (s : Feed) (message : Message) :
  feedInv s ->
  message <> Null ->
  exists s', onmessage timeframe random s message = Normal s' /\ feedInv s'.
Proof.
  intros (Hmax & Hmin & Huninit & Hlatest) Hnotnull.
  destruct message as [tickPrice E| |];
    [|exists s; split; [reflexivity|]; repeat split; assumption
     |congruence].
  unfold onmessage.
  set (tickTime := (E / 1000)%Z).
  set (bucket := (tickTime / intervalSeconds timeframe)%Z).
  set (candles := if negb (isInitialized s)
                  then generateInitialHistory timeframe random tickPrice tickTime
                  else candlesRef s).
  assert (Hcandles : (60 <= List.length candles <= 100)%nat).
  { unfold candles. destruct (isInitialized s); cbn [negb].
    - split; [apply Hmin; reflexivity|exact Hmax].
    - unfold generateInitialHistory. rewrite historyLoop_length. lia. }
  assert (Hsame : currentAggregatedCandle s <> None -> candles = candlesRef s).
  { intros Hsome. unfold candles. destruct (isInitialized s); [reflexivity|].
    exfalso. apply Hsome, Huninit. reflexivity. }
  destruct (startTime s =? bucket)%Z eqn:Hbucket; cbn [negb].
  - (* the bucket of the pending candle *)
    destruct (currentAggregatedCandle s) as [pending|] eqn:Hpending; cbn [bind].
    + assert (Hpos : (JS.length candles >? 0)%Z = true)
        by (apply Z.gtb_lt; unfold JS.length; lia).
      rewrite Hpos.
      match goal with
      | |- context [analyzeMarket ?w] =>
          destruct (analyzeMarket_returns w) as [result Hrun]; rewrite Hrun
      end.
      cbn [bind]. eexists. split; [reflexivity|].
      unfold feedInv. cbn. repeat split; try lia; try discriminate.
      exists result. split; [reflexivity|exact Hrun].
    + eexists. split; [reflexivity|].
      unfold feedInv. cbn. repeat split; try lia; try discriminate.
      exact Hlatest.
  - (* a new bucket *)
    destruct (currentAggregatedCandle s) as [pending|] eqn:Hpending.
    + destruct (analyzeMarket_returns (JS.slice (-100) (candles ++ [pending])))
        as [committed Hcommitted].
      rewrite Hcommitted. cbn [bind].
      assert (Hlen : List.length (JS.slice (-100) (candles ++ [pending]))
                     = Nat.min 100 (List.length candles + 1)).
      { rewrite slice_last100_length, length_app. reflexivity. }
      assert (Hpos : (JS.length (JS.slice (-100) (candles ++ [pending])) >? 0)%Z
                     = true)
        by (apply Z.gtb_lt; unfold JS.length; lia).
      rewrite Hpos.
      match goal with
      | |- context [bind (analyzeMarket ?w) _] =>
          destruct (analyzeMarket_returns w) as [result Hrun]; rewrite Hrun
      end.
      cbn [bind]. eexists. split; [reflexivity|].
      unfold feedInv. cbn. repeat split; try lia; try discriminate.
      exists result. split; [reflexivity|exact Hrun].
    + cbn [bind].
      assert (Hpos : (JS.length candles >? 0)%Z = true)
        by (apply Z.gtb_lt; unfold JS.length; lia).
      rewrite Hpos.
      match goal with
      | |- context [analyzeMarket ?w] =>
          destruct (analyzeMarket_returns w) as [result Hrun]; rewrite Hrun
      end.
      cbn [bind]. eexists. split; [reflexivity|].
      unfold feedInv. cbn. repeat split; try lia; try discriminate.
      exists result. split; [reflexivity|exact Hrun].
Qed.

Lemma session_feedInv (messages : list Message) :
  forall s,
    feedInv s ->
    exists s', session timeframe random s messages = Normal s' /\ feedInv s'.
Proof.
  induction messages as [|message rest IH]; intros s Hinv; cbn [session].
  - exists s. split; [reflexivity|exact Hinv].
  - destruct message as [c E| |].
    + destruct (onmessage_feedInv s (Kline c E) Hinv) as (s1 & -> & Hinv1);
        [discriminate|].
      apply IH. exact Hinv1.
    + cbn [onmessage]. apply IH. exact Hinv.
    + cbn [onmessage]. apply IH. exact Hinv.
Qed.



End FeedProperties.

(** ** onmessage: sessions from the initial state *)




(** After any session the latest analysis is the one of the committed
    window extended by the pending candle, whenever there is a pending
    candle, and there is none otherwise; its signal is CALL or PUT, and the
    pending candle closes at the last price received. *)
Theorem session_latest_analysis (timeframe : Timeframe)
    (random : nat -> float) (messages : list Message) :
  exists s,
    session timeframe random initialFeed messages = Normal s /\
    match currentAggregatedCandle s with
    | Some pending =>
        close pending = tickerPrice s /\
        exists result,
          latestAnalysisRef s = Some result /\
          analyzeMarket (candlesRef s ++ [pending]) = Normal result /\
          (signal result = CALL \/ signal result = PUT)
    | None => latestAnalysisRef s = None
    end.
Proof.
  destruct (session_feedInv timeframe random messages initialFeed feedInv_initial)
    as (s & Hrun & _ & _ & _ & Hlatest).
  exists s. split; [exact Hrun|].
  destruct (currentAggregatedCandle s) as [pending|]; [|exact Hlatest].
  destruct Hlatest as (Hclose & result & Hres & Hana).
  split; [exact Hclose|]. exists result.
  split; [exact Hres|]. split; [exact Hana|].
  exact (analyzeMarket_binary _ _ Hana).
Qed.

(** ** onmessage: closing and updating the pending candle *)








(** The handler's [startTime] starts at 0, so ticks of bucket 0 look like
    ticks of an open bucket with no pending candle: as long as every kline
    message falls in bucket 0, no candle is opened and no analysis is
    produced. *)
Theorem session_bucket_zero (timeframe : Timeframe) (random : nat -> float)
    (messages : list Message) :
  (forall c E, In (Kline c E) messages -> bucketOf timeframe E = 0%Z) ->
  exists s,
    session timeframe random initialFeed messages = Normal s /\
    currentAggregatedCandle s = None /\
    latestAnalysisRef s = None.
Proof.
  assert (Hgen : forall s0,
             startTime s0 = 0%Z ->
             currentAggregatedCandle s0 = None ->
             latestAnalysisRef s0 = None ->
             (forall c E, In (Kline c E) messages -> bucketOf timeframe E = 0%Z) ->
             exists s,
               session timeframe random s0 messages = Normal s /\
               currentAggregatedCandle s = None /\
               latestAnalysisRef s = None).
  { induction messages as [|message rest IH]; intros s0 Hstart Hcur Hlat Hzero.
    - exists s0. repeat split; assumption.
    - destruct message as [c E| |]; cbn [session].
      + assert (Hb : bucketOf timeframe E = 0%Z)
          by (apply (Hzero c E); left; reflexivity).
        unfold onmessage. unfold bucketOf in Hb.
        rewrite Hb, Hstart, Hcur, Hlat. cbn [Z.eqb negb bind].
        apply IH; try reflexivity.
        intros c' E' Hin. apply (Hzero c' E'). right. exact Hin.
      + cbn [onmessage]. apply IH; try assumption.
        intros c' E' Hin. apply (Hzero c' E'). right. exact Hin.
      + cbn [onmessage]. apply IH; try assumption.
        intros c' E' Hin. apply (Hzero c' E'). right. exact Hin. }
  intros Hzero. apply Hgen; try reflexivity. exact Hzero.
Qed.

Lemma session_bucket_zero_witness :
  (forall c E, In (Kline c E) [Kline 100 5000; NoKline; Kline 101 14999]
               -> bucketOf tf15s E = 0%Z) /\
  exists s,
    session tf15s steady initialFeed [Kline 100 5000; NoKline; Kline 101 14999]
      = Normal s /\
    latestAnalysisRef s = None.
Proof.
  assert (Hzero : forall c E,
             In (Kline c E) [Kline 100 5000; NoKline; Kline 101 14999]
             -> bucketOf tf15s E = 0%Z).
  { intros c E [H | [H | [H | []]]]; try discriminate H.
    - apply (f_equal (fun m => match m with Kline _ e => e | _ => 0%Z end))
        in H. subst E. reflexivity.
    - apply (f_equal (fun m => match m with Kline _ e => e | _ => 0%Z end))
        in H. subst E. reflexivity. }
  split; [exact Hzero|].
  destruct (session_bucket_zero tf15s steady _ Hzero) as (s & Hrun & _ & Hlat).
  exists s. split; assumption.
Defined.

(** * analyzeMarket never reads a timestamp *)

Lemma haLoop_untimed (rest : list Candle) :
  forall prevHa,
    haLoop (untimedHa prevHa) (map untimed rest)
    = map untimedHa (haLoop prevHa rest).
Proof.
  induction rest as [|c rest IH]; intros prevHa; simpl.
  - reflexivity.
  - f_equal. apply (IH (nextHa prevHa c)).
Qed.

Lemma calculateHeikinAshi_untimed (candles : list Candle) :
  calculateHeikinAshi (map untimed candles)
  = map untimedHa (calculateHeikinAshi candles).
Proof.
  destruct candles as [|first rest]; simpl.
  - reflexivity.
  - f_equal. apply (haLoop_untimed rest (firstHa first)).
Qed.

Lemma trLoop_untimed (rest : list Candle) :
  forall prev, trLoop (untimed prev) (map untimed rest) = trLoop prev rest.
Proof.
  induction rest as [|c rest IH]; intros prev; simpl.
  - reflexivity.
  - f_equal. apply IH.
Qed.

Lemma array_get_map {A B : Type} (f : A -> B) (arr : list A) (i : Z) :
  JS.array_get (map f arr) i = option_map f (JS.array_get arr i).
Proof.
  unfold JS.array_get. destruct (i <? 0)%Z; [reflexivity|].
  apply nth_error_map.
Qed.

Lemma calculateSupertrend_untimed (candles : list Candle) (period : Z)
    (multiplier : float) :
  calculateSupertrend (map untimed candles) period multiplier
  = calculateSupertrend candles period multiplier.
Proof.
  unfold calculateSupertrend, JS.length. rewrite length_map.
  destruct (_ <? _)%Z; [reflexivity|].
  assert (Htr : trueRanges (map untimed candles) = trueRanges candles).
  { destruct candles as [|c0 rest]; simpl; [reflexivity|apply trLoop_untimed]. }
  rewrite Htr, array_get_map.
  destruct (JS.array_get candles _) as [curr|]; reflexivity.
Qed.

Lemma readIndicators_untimed (candles : list Candle)
    (haCandles : list HeikinAshiCandle) (closes : list float) :
  readIndicators (map untimed candles) (map untimedHa haCandles) closes
  = r <- readIndicators candles haCandles closes ;; Normal (untimedReadings r).
Proof.
  unfold readIndicators, JS.length. rewrite length_map, !array_get_map.
  rewrite calculateSupertrend_untimed.
  destruct (JS.array_get haCandles _) as [cur|]; [|reflexivity].
  destruct (JS.array_get haCandles _) as [prev|]; [|reflexivity].
  cbn [option_map defined bind].
  destruct (calculateRSI closes 14) as [rsi|]; [|reflexivity].
  destruct (calculateEMA closes 20) as [e20|]; [|reflexivity].
  destruct (calculateEMA closes 50) as [e50|]; [|reflexivity].
  destruct (calculateMACD closes 12 26 9) as [m|]; [|reflexivity].
  destruct (calculateSupertrend candles 10 3) as [st|]; reflexivity.
Qed.

Lemma analyzeMarket_untimed (candles : list Candle) :
  analyzeMarket (map untimed candles) = analyzeMarket candles.
Proof.
  unfold analyzeMarket.
  rewrite calculateHeikinAshi_untimed, map_map.
  unfold JS.length at 1. rewrite length_map. fold (JS.length (calculateHeikinAshi candles)).
  destruct (_ <? 2)%Z; [reflexivity|].
  replace (map (fun x => close (untimed x)) candles) with (map close candles)
    by (apply map_ext; reflexivity).
  rewrite readIndicators_untimed.
  destruct (readIndicators candles _ _) as [r|]; [|reflexivity].
  cbn [bind]. destruct r as [cur prev p rsi e20 e50 m st]. reflexivity.
Qed.

(** Two windows with the same opens, highs, lows and closes get the same
    analysis, whatever their timestamps. *)
Theorem analyzeMarket_ignores_time (candles candles' : list Candle) :
  map untimed candles = map untimed candles' ->
  analyzeMarket candles = analyzeMarket candles'.
Proof.
  intros Hsame.
  rewrite <- (analyzeMarket_untimed candles), Hsame.
  apply analyzeMarket_untimed.
Qed.

Lemma analyzeMarket_ignores_time_witness :
  map untimed sample_window
  = map untimed [mkCandle 60 1 5 0 2; mkCandle 120 1.5 5 1 2.5] /\
  analyzeMarket sample_window
  = analyzeMarket [mkCandle 60 1 5 0 2; mkCandle 120 1.5 5 1 2.5].
Proof.
  split; [reflexivity|].
  exact (analyzeMarket_ignores_time sample_window
           [mkCandle 60 1 5 0 2; mkCandle 120 1.5 5 1 2.5] eq_refl).
Defined.

(** * The first tick of a session *)


